(** * Employee recruiter agent: a shallow embedding of the pipeline

    The development follows [employee_recruiter_agent.py]: the Pydantic
    models become records, the agents, the PDF reader, the clock and the
    random generator become capabilities of an explicit world, and the
    four coroutines become functions of a small state monad that also
    records every capability call. *)

From Stdlib Require Import ZArith Bool Ascii Lia.
From Stdlib Require Import SpecFloat.
From stdpp Require Import gmap strings list.

Local Open Scope Z_scope.

(** ** Characters and strings as Python sees them

    A [str] is modelled as a [string] of code points below 256. *)

Module PyStr.

Definition code (c : ascii) : Z := Z.of_N (N_of_ascii c).

Definition chr (n : Z) : ascii := ascii_of_N (Z.to_N n).

Definition newline : ascii := chr 10.
Definition carriage_return : ascii := chr 13.

(** [str.isspace] on one character, also the class [\s] of [re]. *)
Definition isspace (c : ascii) : bool :=
  let n := code c in
  ((9 <=? n) && (n <=? 13)) || ((28 <=? n) && (n <=? 32))
  || (n =? 133) || (n =? 160).

(** The class [\d] of [re]. *)
Definition isdigit (c : ascii) : bool :=
  let n := code c in (48 <=? n) && (n <=? 57).

(** The class [\w] of [re]: alphanumeric characters and the underscore. *)
Definition isword (c : ascii) : bool :=
  let n := code c in
  isdigit c
  || ((65 <=? n) && (n <=? 90)) || ((97 <=? n) && (n <=? 122))
  || (n =? 95)
  || (n =? 170) || (n =? 178) || (n =? 179) || (n =? 181)
  || (n =? 185) || (n =? 186) || ((188 <=? n) && (n <=? 190))
  || ((192 <=? n) && (n <=? 214)) || ((216 <=? n) && (n <=? 246))
  || (248 <=? n).

(** [str.lower] on one character. *)
Definition lower_char (c : ascii) : ascii :=
  let n := code c in
  if ((65 <=? n) && (n <=? 90))
     || ((192 <=? n) && (n <=? 214)) || ((216 <=? n) && (n <=? 222))
  then chr (n + 32) else c.

Fixpoint lower (s : string) : string :=
  match s with
  | EmptyString => EmptyString
  | String c s' => String (lower_char c) (lower s')
  end.

Fixpoint len (s : string) : nat :=
  match s with
  | EmptyString => O
  | String _ s' => S (len s')
  end.

(** [s[:n]] *)
Fixpoint take (n : nat) (s : string) : string :=
  match n, s with
  | O, _ => EmptyString
  | _, EmptyString => EmptyString
  | S n', String c s' => String c (take n' s')
  end.

Fixpoint startswith (p s : string) : bool :=
  match p, s with
  | EmptyString, _ => true
  | String a p', String b s' => if Ascii.eqb a b then startswith p' s' else false
  | String _ _, EmptyString => false
  end.

(** [p in s] *)
Fixpoint contains (p s : string) : bool :=
  if startswith p s then true
  else match s with
       | EmptyString => false
       | String _ s' => contains p s'
       end.

(** [s.split(sep)] for a one-character separator: never the empty list. *)
Fixpoint split (sep : ascii) (s : string) : list string :=
  match s with
  | EmptyString => [EmptyString]
  | String c s' =>
      if Ascii.eqb c sep then EmptyString :: split sep s'
      else match split sep s' with
           | [] => [String c EmptyString]
           | piece :: rest => String c piece :: rest
           end
  end.

(** [s.split(sep, 1)[1]]: what follows the first separator; [None] stands
    for the [IndexError] of a string without separator. *)
Fixpoint after_first (sep : ascii) (s : string) : option string :=
  match s with
  | EmptyString => None
  | String c s' => if Ascii.eqb c sep then Some s' else after_first sep s'
  end.

Fixpoint lstrip (s : string) : string :=
  match s with
  | EmptyString => EmptyString
  | String c s' => if isspace c then lstrip s' else s
  end.

(** Right strip: a character is kept when something non-blank follows. *)
Fixpoint rstrip (s : string) : string :=
  match s with
  | EmptyString => EmptyString
  | String c s' =>
      match rstrip s' with
      | EmptyString => if isspace c then EmptyString else String c EmptyString
      | t => String c t
      end
  end.

Definition strip (s : string) : string := rstrip (lstrip s).

(** [s.replace(a, b)] for one-character [a] and [b]. *)
Fixpoint replace (a b : ascii) (s : string) : string :=
  match s with
  | EmptyString => EmptyString
  | String c s' => String (if Ascii.eqb c a then b else c) (replace a b s')
  end.

(** Every character of [s] is in the class [p]. *)
Fixpoint all (p : ascii -> bool) (s : string) : bool :=
  match s with
  | EmptyString => true
  | String c s' => p c && all p s'
  end.

(** [sep.join(parts)] *)
Fixpoint join (sep : string) (parts : list string) : string :=
  match parts with
  | [] => EmptyString
  | [p] => p
  | p :: rest => p +:+ sep +:+ join sep rest
  end.

(** Decimal digits of a non-negative integer, least significant produced
    first; [fuel] bounds the number of digits. *)
Fixpoint digits_acc (fuel : nat) (n : Z) (acc : string) : string :=
  match fuel with
  | O => acc
  | S fuel' =>
      let acc' := String (chr (48 + n mod 10)) acc in
      if n / 10 =? 0 then acc' else digits_acc fuel' (n / 10) acc'
  end.

(** [str(n)] for [0 <= n]. *)
Definition of_Z (n : Z) : string := digits_acc (S (Z.to_nat (Z.log2 n))) n EmptyString.

(** [f"{n:0{w}d}"]: zero padding on the left up to width [w]. *)
Fixpoint zeros (k : nat) : string :=
  match k with
  | O => EmptyString
  | S k' => String (chr 48) (zeros k')
  end.

Definition pad (w : nat) (n : Z) : string :=
  let d := of_Z n in zeros (w - len d) +:+ d.

End PyStr.

(** ** The fragment of [re] the source uses

    Every pattern of the source is a sequence of one-character classes,
    each with a quantifier, around at most one capture group.  The matcher
    backtracks in the order of [re]: a greedy quantifier tries the longest
    repetition first, a lazy one the shortest. *)

Module Re.

Inductive quant := Once | Optional | Many0 | Many1 | Lazy0.

Inductive item :=
  | Atom (p : ascii -> bool) (q : quant)
  | GroupOpen
  | GroupClose.

Definition regex := list item.

(** Positions are kept as the text that remains to be read. *)
Record marks := { m_open : option string; m_close : option string }.

Section Repeat.
Context {R : Type} (p : ascii -> bool) (k : string -> option R).

Definition one (s : string) : option R :=
  match s with
  | String c s' => if p c then k s' else None
  | EmptyString => None
  end.

Fixpoint greedy (s : string) : option R :=
  match (match s with
         | String c s' => if p c then greedy s' else None
         | EmptyString => None
         end) with
  | Some r => Some r
  | None => k s
  end.

Fixpoint lazy (s : string) : option R :=
  match k s with
  | Some r => Some r
  | None => match s with
            | String c s' => if p c then lazy s' else None
            | EmptyString => None
            end
  end.
End Repeat.

Fixpoint run (r : regex) (g : marks) (s : string) : option (string * marks) :=
  match r with
  | [] => Some (s, g)
  | GroupOpen :: r' => run r' {| m_open := Some s; m_close := m_close g |} s
  | GroupClose :: r' => run r' {| m_open := m_open g; m_close := Some s |} s
  | Atom p Once :: r' => one p (run r' g) s
  | Atom p Optional :: r' =>
      match one p (run r' g) s with
      | Some x => Some x
      | None => run r' g s
      end
  | Atom p Many0 :: r' => greedy p (run r' g) s
  | Atom p Many1 :: r' => one p (greedy p (run r' g)) s
  | Atom p Lazy0 :: r' => lazy p (run r' g) s
  end.

(** The text between two positions of the same string. *)
Definition between (from to : string) : string :=
  PyStr.take (PyStr.len from - PyStr.len to) from.

(** A match object: [group(0)] and, when the pattern has a group,
    [group(1)]. *)
Record found := { group0 : string; group1 : option string }.

Definition found_at (s : string) (res : string * marks) : found :=
  {| group0 := between s (fst res);
     group1 := match m_open (snd res), m_close (snd res) with
               | Some a, Some b => Some (between a b)
               | _, _ => None
               end |}.

(** [re.search(r, s)]: the match at the leftmost position that has one. *)
Fixpoint search (r : regex) (s : string) : option found :=
  match run r {| m_open := None; m_close := None |} s with
  | Some res => Some (found_at s res)
  | None => match s with
            | String _ s' => search r s'
            | EmptyString => None
            end
  end.

(** Classes *)
Definition lit (c : ascii) : ascii -> bool := fun x => Ascii.eqb x c.
Definition lit_nocase (c : ascii) : ascii -> bool :=
  fun x => Ascii.eqb (PyStr.lower_char x) (PyStr.lower_char c).
Definition colon_or_space : ascii -> bool :=
  fun x => lit ":"%char x || PyStr.isspace x.
Definition word_dot_dash : ascii -> bool :=
  fun x => PyStr.isword x || lit "."%char x || lit "-"%char x.
Definition dot_any : ascii -> bool := fun x => negb (Ascii.eqb x PyStr.newline).
Definition line_end : ascii -> bool :=
  fun x => Ascii.eqb x PyStr.newline || Ascii.eqb x PyStr.carriage_return.

Fixpoint word (mk : ascii -> ascii -> bool) (w : string) : regex :=
  match w with
  | EmptyString => []
  | String c w' => Atom (mk c) Once :: word mk w'
  end.

(** The captured number: digits, an optional dot, digits. *)
Definition number_group : regex :=
  [GroupOpen; Atom PyStr.isdigit Many1; Atom (lit "."%char) Optional;
   Atom PyStr.isdigit Many0; GroupClose].

End Re.

(** ** Python floats: IEEE 754 binary64, on [spec_float] *)

Module PyFloat.

Definition prec : Z := 53.
Definition emax : Z := 1024.

Definition float := spec_float.

(** [x < y], [x >= y], [x > y], [x / y] *)
Definition lt (x y : float) : bool := SFltb x y.
Definition ge (x y : float) : bool := SFleb y x.
Definition gt (x y : float) : bool := SFltb y x.
Definition div (x y : float) : float := SFdiv prec emax x y.

(** The float nearest to the integer [n]. *)
Definition of_Z (n : Z) : float := binary_normalize prec emax n 0 false.

Definition five : float := of_Z 5.
Definition ten : float := of_Z 10.

(** The value of a string of decimal digits, [None] on another character. *)
Fixpoint digits_value (acc : Z) (s : string) : option Z :=
  match s with
  | EmptyString => Some acc
  | String c s' =>
      if PyStr.isdigit c then digits_value (10 * acc + (PyStr.code c - 48)) s'
      else None
  end.

(** The text before and after the first dot. *)
Fixpoint cut_at_dot (s : string) : string * option string :=
  match s with
  | EmptyString => (EmptyString, None)
  | String c s' =>
      if Ascii.eqb c "." then (EmptyString, Some s')
      else let '(a, b) := cut_at_dot s' in (String c a, b)
  end.

Fixpoint pow10 (k : nat) : positive :=
  match k with
  | O => 1%positive
  | S k' => (10 * pow10 k')%positive
  end.

(** The float nearest to [n / 10^k], rounded once, to even on a tie. *)
Definition of_decimal (n : Z) (k : nat) : float :=
  match n with
  | Zpos m => div (S754_finite false m 0) (S754_finite false (pow10 k) 0)
  | _ => S754_zero false
  end.

(** [float(s)] on the unsigned literals [digits], [digits.], [.digits] and
    [digits.digits]; [None] stands for [ValueError].  Signs, exponents,
    blanks and the names of infinity and NaN, which [float] also reads,
    are outside the texts a score pattern captures and are not modelled. *)
Definition of_string (s : string) : option float :=
  let '(ip, fp) := cut_at_dot s in
  let fp := default EmptyString fp in
  match ip, fp with
  | EmptyString, EmptyString => None
  | _, _ =>
      match digits_value 0 (ip +:+ fp) with
      | Some n => Some (of_decimal n (PyStr.len fp))
      | None => None
      end
  end.

End PyFloat.

(** ** Dates and times of [datetime] *)

Module PyTime.

(** A naive [datetime]: the proleptic Gregorian ordinal of its date
    (day 1 is 0001-01-01) and its time of day. *)
Record datetime := {
  ordinal : Z;
  hour : Z;
  minute : Z;
  second : Z;
  microsecond : Z
}.

(** [date.max.toordinal()] *)
Definition max_ordinal : Z := 3652059.

(** [t + timedelta(days=d)]; [None] stands for [OverflowError]. *)
Definition add_days (t : datetime) (d : Z) : option datetime :=
  let o := ordinal t + d in
  if (1 <=? o) && (o <=? max_ordinal)
  then Some {| ordinal := o; hour := hour t; minute := minute t;
               second := second t; microsecond := microsecond t |}
  else None.

(** [t.replace(hour=h, minute=0, second=0, microsecond=0)] *)
Definition on_the_hour (t : datetime) (h : Z) : datetime :=
  {| ordinal := ordinal t; hour := h; minute := 0; second := 0;
     microsecond := 0 |}.

Definition days_before_month (leap : bool) (month : Z) : Z :=
  let base := nth (Z.to_nat month)
                [0; 0; 31; 59; 90; 120; 151; 181; 212; 243; 273; 304; 334] 0 in
  if (2 <? month) && leap then base + 1 else base.

Definition days_in_month (leap : bool) (month : Z) : Z :=
  let base := nth (Z.to_nat month)
                [0; 31; 28; 31; 30; 31; 30; 31; 31; 30; 31; 30; 31] 0 in
  if (month =? 2) && leap then base + 1 else base.

(** Year, month and day of an ordinal, by cycles of 400, 100, 4 and 1
    years. *)
Definition ord2ymd (o : Z) : Z * Z * Z :=
  let n := o - 1 in
  let n400 := n / 146097 in
  let n := n mod 146097 in
  let n100 := n / 36524 in
  let n := n mod 36524 in
  let n4 := n / 1461 in
  let n := n mod 1461 in
  let n1 := n / 365 in
  let n := n mod 365 in
  let year := n400 * 400 + 1 + n100 * 100 + n4 * 4 + n1 in
  if (n1 =? 4) || (n100 =? 4) then (year - 1, 12, 31)
  else
    let leap := (n1 =? 3) && (negb (n4 =? 24) || (n100 =? 3)) in
    let month := (n + 50) / 32 in
    let preceding := days_before_month leap month in
    if n <? preceding
    then (year, month - 1,
          n - (preceding - days_in_month leap (month - 1)) + 1)
    else (year, month, n - preceding + 1).

(** [strftime('%Y-%m-%d')], the year on four digits. *)
Definition fmt_date (o : Z) : string :=
  let '(y, m, d) := ord2ymd o in
  PyStr.pad 4 y +:+ "-" +:+ PyStr.pad 2 m +:+ "-" +:+ PyStr.pad 2 d.

(** [strftime('%Y-%m-%d %H:%M')] *)
Definition fmt_minutes (t : datetime) : string :=
  fmt_date (ordinal t) +:+ " " +:+ PyStr.pad 2 (hour t) +:+ ":"
  +:+ PyStr.pad 2 (minute t).

(** [strftime('%Y-%m-%d %H:%M:%S')] *)
Definition fmt_seconds (t : datetime) : string :=
  fmt_minutes t +:+ ":" +:+ PyStr.pad 2 (second t).

End PyTime.

(** ** The Pydantic models *)

Record ScreeningResult := {
  sr_name : string;
  sr_email : string;
  sr_score : PyFloat.float;
  sr_feedback : string
}.

Record ScheduledCall := {
  sc_name : string;
  sc_email : string;
  sc_call_time : string;
  sc_url : string
}.

Record EmailContent := {
  ec_subject : string;
  ec_body : string
}.

Inductive Status := rejected | selected | scheduled | email_sent.

Record CandidateResult := {
  name : string;
  email : string;
  score : PyFloat.float;
  feedback : string;
  status : Status;
  interview_time : option string;
  meeting_url : option string;
  email_subject : option string
}.

(** The dictionary [process_candidates] returns; [error] is the key that
    only the two early returns set. *)
Record PipelineResult := {
  all_candidates : list ScreeningResult;
  selected_candidates : list ScreeningResult;
  results : list CandidateResult;
  email_contents : gmap string EmailContent;
  error : option string
}.

(** ** The world outside: agents, PDF reader, clock, random generator *)

(** [response.content]: [None], a text, or an instance of the agent's
    [output_schema]. *)
Inductive content (T : Type) :=
  | NoContent
  | Text (s : string)
  | Structured (v : T).
Arguments NoContent {T}.
Arguments Text {T} s.
Arguments Structured {T} v.

(** What [await agent.arun(prompt)] does: raise, or return a response,
    which may be [None]. *)
Inductive reply (T : Type) :=
  | Raised
  | Returned (response : option (content T)).
Arguments Raised {T}.
Arguments Returned {T} response.

(** Truth value of [response.content] *)
Definition truthy {T} (c : content T) : bool :=
  match c with
  | NoContent => false
  | Text s => negb (String.eqb s "")
  | Structured _ => true
  end.

Class Capabilities (W : Type) := {
  (** [PdfReader] on the bytes of a file: the text of each page, or [None]
      when opening, reading or parsing raises. *)
  read_pdf : string -> W -> option (list (option string)) * W;
  screening_arun : string -> W -> reply ScreeningResult * W;
  scheduler_arun : string -> W -> reply ScheduledCall * W;
  email_writer_arun : string -> W -> reply EmailContent * W;
  (** The sender has no [output_schema]. *)
  email_sender_arun : string -> W -> reply Empty_set * W;
  (** [datetime.now()] *)
  clock : W -> PyTime.datetime * W;
  (** The random generator, as a source of non-negative integers. *)
  random_draw : W -> N * W
}.

(** Every use of a capability is recorded, with the Python arguments of
    the function that makes it. *)
Inductive call :=
  | CallExtract (file_path : string)
  | CallScreen (resume_text job_description : string)
  | CallSchedule (candidate : ScreeningResult)
  | CallWrite (candidate : ScreeningResult) (scheduled_call : ScheduledCall)
  | CallSend (candidate : ScreeningResult) (email_content : EmailContent).

Record state (W : Type) := { world : W; calls : list call }.
Arguments world {W} s.
Arguments calls {W} s.

Definition M (W A : Type) : Type := state W -> A * state W.

Definition ret {W A} (a : A) : M W A := fun s => (a, s).

Definition bind {W A B} (m : M W A) (f : A -> M W B) : M W B :=
  fun s => let '(a, s') := m s in f a s'.

Notation "'let*' x ':=' m 'in' k" := (bind m (fun x => k))
  (at level 10, x name, m at level 100, k at level 200).

(** Use a capability and record the call. *)
Definition perform {W A} (c : call) (f : W -> A * W) : M W A :=
  fun s => let '(a, w) := f (world s) in
           (a, {| world := w; calls := calls s ++ [c] |}).

(** Use a capability that is not recorded (clock, random generator). *)
Definition consult {W A} (f : W -> A * W) : M W A :=
  fun s => let '(a, w) := f (world s) in
           (a, {| world := w; calls := calls s |}).

(** ** The patterns of the source *)

Definition nl : string := String PyStr.newline EmptyString.

(** The three score patterns, in the order of the source: the word score,
    colons or blanks, the captured number; the captured number before
    /10; the word rating, colons or blanks, the captured number. *)
Definition score_patterns : list Re.regex :=
  [ Re.word Re.lit "score" ++ [Re.Atom Re.colon_or_space Re.Many1]
      ++ Re.number_group;
    Re.number_group ++ Re.word Re.lit "/10";
    Re.word Re.lit "rating" ++ [Re.Atom Re.colon_or_space Re.Many1]
      ++ Re.number_group ].

(** Word characters, dots or dashes; an at sign; the same again; a dot;
    word characters. *)
Definition email_pattern : Re.regex :=
  [ Re.Atom Re.word_dot_dash Re.Many1; Re.Atom (Re.lit "@"%char) Re.Once;
    Re.Atom Re.word_dot_dash Re.Many1; Re.Atom (Re.lit "."%char) Re.Once;
    Re.Atom PyStr.isword Re.Many1 ].

(** The word subject in any case, colons or blanks, the shortest captured
    run of characters of one line, a line feed or carriage return. *)
Definition subject_pattern : Re.regex :=
  Re.word Re.lit_nocase "subject"
  ++ [ Re.Atom Re.colon_or_space Re.Many1; Re.GroupOpen;
       Re.Atom Re.dot_any Re.Lazy0; Re.GroupClose;
       Re.Atom Re.line_end Re.Once ].

(** ** The prompts *)

Definition screening_prompt (resume_text job_description : string) : string :=
  PyStr.join nl
    [ "";
      "    Please screen this candidate for the job position.";
      "";
      "    RESUME:";
      "    " +:+ resume_text;
      "";
      "    JOB DESCRIPTION:";
      "    " +:+ job_description;
      "";
      "    Evaluate how well this candidate matches the job requirements and provide a score from 0-10.";
      "    " ].

Definition schedule_prompt (candidate : ScreeningResult) : string :=
  PyStr.join nl
    [ "";
      "    Schedule a 1-hour interview call for:";
      "    - Candidate: " +:+ sr_name candidate;
      "    - Email: " +:+ sr_email candidate;
      "    - Interviewer: Dirk Brand (dirk@phidata.com)";
      "    ";
      "    Use the simulate_zoom_scheduling tool to create the meeting.";
      "    " ].

Definition email_prompt (candidate : ScreeningResult)
    (scheduled_call : ScheduledCall) : string :=
  PyStr.join nl
    [ "";
      "    Write a professional interview invitation email for:";
      "    - Candidate: " +:+ sr_name candidate +:+ " ("
        +:+ sr_email candidate +:+ ")";
      "    - Interview time: " +:+ sc_call_time scheduled_call;
      "    - Meeting URL: " +:+ sc_url scheduled_call;
      "    ";
      "    Congratulate them on being selected and include all necessary details.";
      "    " ].

Definition send_prompt (candidate : ScreeningResult)
    (email_content : EmailContent) : string :=
  PyStr.join nl
    [ "";
      "            Send the interview invitation email:";
      "            - To: " +:+ sr_email candidate;
      "            - Subject: " +:+ ec_subject email_content;
      "            - Body: " +:+ ec_body email_content;
      "            ";
      "            Use the simulate_email_sending tool.";
      "            " ].

(** The template body of the fallback email. *)
Definition template_body (candidate : ScreeningResult)
    (scheduled_call : ScheduledCall) : string :=
  PyStr.join nl
    [ "Dear " +:+ sr_name candidate +:+ ",";
      "";
      "Congratulations! We are excited to inform you that you have been selected to move forward in the hiring process.";
      "";
      "Interview Details:";
      "- Date & Time: " +:+ sc_call_time scheduled_call;
      "- Duration: 1 hour";
      "- Meeting Link: " +:+ sc_url scheduled_call;
      "";
      "Please confirm your availability for this time slot by replying to this email.";
      "";
      "We look forward to speaking with you!";
      "";
      "Best regards,";
      "John Doe";
      "Senior Software Engineer";
      "john@agno.com" ].

(** ** The functions of [employee_recruiter_agent.py] *)

Section Pipeline.
Context {W : Type} `{Capabilities W}.

(** [random.randint(a, b)] *)
Definition randint (a b : Z) : M W Z :=
  let* r := consult random_draw in
  ret (a + Z.of_N r mod (b - a + 1)).

Definition extract_text_from_pdf (file_path : string) : M W string :=
  let* pages := perform (CallExtract file_path) (read_pdf file_path) in
  match pages with
  | Some texts => ret (PyStr.join nl (map (default EmptyString) texts))
  | None => ret EmptyString
  end.

(** *** Simulated tools *)

(** [None] stands for the [OverflowError] of a date past [date.max]. *)
Definition simulate_zoom_scheduling (candidate_name candidate_email : string)
  : M W (option string) :=
  let* now := consult clock in
  let* days := randint 1 7 in
  match PyTime.add_days now days with
  | None => ret None
  | Some base_time =>
      let* hour := randint 10 17 in
      let scheduled_time := PyTime.on_the_hour base_time hour in
      let* meeting_id := randint 100000000 999999999 in
      let zoom_url := "https://zoom.us/j/" +:+ PyStr.of_Z meeting_id in
      ret (Some ("[OK] Zoom call scheduled successfully!" +:+ nl
                 +:+ "Time: " +:+ PyTime.fmt_minutes scheduled_time
                 +:+ " IST" +:+ nl
                 +:+ "Meeting URL: " +:+ zoom_url +:+ nl
                 +:+ "Participant: " +:+ candidate_name +:+ " ("
                 +:+ candidate_email +:+ ")"))
  end.

Definition simulate_email_sending (to_email subject body : string)
  : M W string :=
  let* now := consult clock in
  ret ("[OK] Email sent successfully!" +:+ nl
       +:+ "To: " +:+ to_email +:+ nl
       +:+ "Subject: " +:+ subject +:+ nl
       +:+ "Body length: " +:+ PyStr.of_Z (Z.of_nat (PyStr.len body))
       +:+ " characters" +:+ nl
       +:+ "Sent at: " +:+ PyTime.fmt_seconds now).

(** *** Screening *)

(** The loop over the lines that looks for a name; [None] stands for the
    [IndexError] of a line without colon. *)
Fixpoint scan_name (name : string) (lines : list string) : option string :=
  match lines with
  | [] => Some name
  | line :: rest =>
      if PyStr.contains "name:" (PyStr.lower line)
      then option_map PyStr.strip (PyStr.after_first ":" line)
      else scan_name name rest
  end.

(** The loop over the score patterns: the first pattern that matches and
    whose number parses sets the score and ends the loop. *)
Fixpoint scan_score (score : PyFloat.float) (patterns : list Re.regex)
    (text_content : string) : PyFloat.float :=
  match patterns with
  | [] => score
  | pattern :: rest =>
      match Re.search pattern (PyStr.lower text_content) with
      | Some score_match =>
          match Re.group1 score_match ≫= PyFloat.of_string with
          | Some parsed =>
              if PyFloat.gt parsed PyFloat.ten
              then PyFloat.div parsed PyFloat.ten
              else parsed
          | None => scan_score score rest text_content
          end
      | None => scan_score score rest text_content
      end
  end.

(** The fallback parser of a text response; [None] when it raises. *)
Definition parse_screening_text (text_content : string)
  : option ScreeningResult :=
  let name0 := "Unknown Candidate" in
  name ← (if PyStr.contains "name:" (PyStr.lower text_content)
          then scan_name name0 (PyStr.split PyStr.newline text_content)
          else Some name0);
  let email :=
    match Re.search email_pattern text_content with
    | Some email_match => Re.group0 email_match
    | None => PyStr.lower (PyStr.replace " " "." name) +:+ "@example.com"
    end in
  let score := scan_score PyFloat.five score_patterns text_content in
  let feedback := PyStr.take 1000 text_content in
  Some {| sr_name := name; sr_email := email; sr_score := score;
          sr_feedback := feedback |}.

(** The [try] block of [screen_candidate]. *)
Definition ask_screening (resume_text job_description : string)
  : M W (option ScreeningResult) :=
  let* response :=
    perform (CallScreen resume_text job_description)
            (screening_arun (screening_prompt resume_text job_description)) in
  match response with
  | Raised => ret None
  | Returned None => ret None
  | Returned (Some c) =>
      if negb (truthy c) then ret None
      else match c with
           | Structured result => ret (Some result)
           | Text text_content => ret (parse_screening_text text_content)
           | NoContent => ret None
           end
  end.

(** [screen_candidate]: the result and the cache as the call leaves it. *)
Definition screen_candidate (resume_path job_description : string)
    (resume_cache : gmap string string)
  : M W (option ScreeningResult * gmap string string) :=
  match resume_cache !! resume_path with
  | None =>
      let* resume_text := extract_text_from_pdf resume_path in
      if String.eqb resume_text ""
      then ret (None, resume_cache)
      else
        let resume_cache := <[resume_path := resume_text]> resume_cache in
        let resume_text := default EmptyString (resume_cache !! resume_path) in
        let* result := ask_screening resume_text job_description in
        ret (result, resume_cache)
  | Some _ =>
      let resume_text := default EmptyString (resume_cache !! resume_path) in
      let* result := ask_screening resume_text job_description in
      ret (result, resume_cache)
  end.

(** *** Scheduling *)

(** The fallback of [schedule_interview]: a simulated slot; [None] when
    the date arithmetic raises, which the [except] clause turns into a
    [None] result. *)
Definition fallback_schedule (candidate : ScreeningResult)
  : M W (option ScheduledCall) :=
  let* now := consult clock in
  let* days := randint 1 7 in
  match PyTime.add_days now days with
  | None => ret None
  | Some base_time =>
      let* hour := randint 10 17 in
      let scheduled_time := PyTime.on_the_hour base_time hour in
      let* meeting_id := randint 100000000 999999999 in
      let zoom_url := "https://zoom.us/j/" +:+ PyStr.of_Z meeting_id in
      ret (Some {| sc_name := sr_name candidate;
                   sc_email := sr_email candidate;
                   sc_call_time := PyTime.fmt_minutes scheduled_time +:+ " IST";
                   sc_url := zoom_url |})
  end.

Definition schedule_interview (candidate : ScreeningResult)
  : M W (option ScheduledCall) :=
  let* response :=
    perform (CallSchedule candidate)
            (scheduler_arun (schedule_prompt candidate)) in
  match response with
  | Raised => ret None
  | Returned None => ret None
  | Returned (Some c) =>
      if negb (truthy c) then ret None
      else match c with
           | Structured result => ret (Some result)
           | Text _ => fallback_schedule candidate
           | NoContent => ret None
           end
  end.

(** *** Invitation email *)

(** The fallback of [send_interview_invitation] on a text response. *)
Definition fallback_email (candidate : ScreeningResult)
    (scheduled_call : ScheduledCall) (text_content : string) : EmailContent :=
  let subject := "Interview Invitation - Backend Engineer Position" in
  let subject :=
    match Re.search subject_pattern text_content with
    | Some subject_match =>
        PyStr.strip (default EmptyString (Re.group1 subject_match))
    | None => subject
    end in
  let body :=
    if (50 <? PyStr.len text_content)%nat then text_content
    else template_body candidate scheduled_call in
  {| ec_subject := subject; ec_body := body |}.

Definition send_interview_invitation (candidate : ScreeningResult)
    (scheduled_call : ScheduledCall) : M W (option EmailContent) :=
  let* response :=
    perform (CallWrite candidate scheduled_call)
            (email_writer_arun (email_prompt candidate scheduled_call)) in
  match response with
  | Raised => ret None
  | Returned None => ret None
  | Returned (Some c) =>
      if negb (truthy c) then ret None
      else match c with
           | Structured email_content =>
               let* send_response :=
                 perform (CallSend candidate email_content)
                         (email_sender_arun
                            (send_prompt candidate email_content)) in
               match send_response with
               | Returned (Some _) => ret (Some email_content)
               | Returned None => ret None
               | Raised => ret None
               end
           | Text text_content =>
               ret (Some (fallback_email candidate scheduled_call text_content))
           | NoContent => ret None
           end
  end.

(** *** The pipeline *)

Definition new_row (screening_result : ScreeningResult)
    (min_score : PyFloat.float) : CandidateResult :=
  {| name := sr_name screening_result;
     email := sr_email screening_result;
     score := sr_score screening_result;
     feedback := sr_feedback screening_result;
     status := if PyFloat.lt (sr_score screening_result) min_score
               then rejected else selected;
     interview_time := None;
     meeting_url := None;
     email_subject := None |}.

(** The variables of phase 1. *)
Record screened := {
  p1_cache : gmap string string;
  p1_all : list ScreeningResult;
  p1_selected : list ScreeningResult;
  p1_results : list CandidateResult
}.

Definition screened_init : screened :=
  {| p1_cache := ∅; p1_all := []; p1_selected := []; p1_results := [] |}.

(** Phase 1: the loop over the resume paths. *)
Fixpoint screening_loop (paths : list string) (job_description : string)
    (min_score : PyFloat.float) (acc : screened) : M W screened :=
  match paths with
  | [] => ret acc
  | file_path :: rest =>
      let* r := screen_candidate file_path job_description (p1_cache acc) in
      match fst r with
      | Some screening_result =>
          screening_loop rest job_description min_score
            {| p1_cache := snd r;
               p1_all := p1_all acc ++ [screening_result];
               p1_selected :=
                 if PyFloat.ge (sr_score screening_result) min_score
                 then p1_selected acc ++ [screening_result]
                 else p1_selected acc;
               p1_results :=
                 p1_results acc ++ [new_row screening_result min_score] |}
      | None =>
          screening_loop rest job_description min_score
            {| p1_cache := snd r; p1_all := p1_all acc;
               p1_selected := p1_selected acc;
               p1_results := p1_results acc |}
      end
  end.

(** The assignments to the row that matches. *)
Definition updated_row (result : CandidateResult)
    (scheduled_call : ScheduledCall) (email_content : option EmailContent)
  : CandidateResult :=
  {| name := name result; email := email result; score := score result;
     feedback := feedback result;
     status := match email_content with
               | Some _ => email_sent
               | None => scheduled
               end;
     interview_time := Some (sc_call_time scheduled_call);
     meeting_url := Some (sc_url scheduled_call);
     email_subject := match email_content with
                      | Some e => Some (ec_subject e)
                      | None => email_subject result
                      end |}.

(** The inner loop of phase 2: scan the rows by email, update the first
    match and leave the loop. *)
Fixpoint update_results (rows : list CandidateResult)
    (candidate : ScreeningResult) (scheduled_call : ScheduledCall)
    (email_content : option EmailContent)
    (email_contents : gmap string EmailContent)
  : list CandidateResult * gmap string EmailContent :=
  match rows with
  | [] => ([], email_contents)
  | result :: rest =>
      if String.eqb (email result) (sr_email candidate)
      then (updated_row result scheduled_call email_content :: rest,
            match email_content with
            | Some e => <[sr_email candidate := e]> email_contents
            | None => email_contents
            end)
      else
        let r := update_results rest candidate scheduled_call email_content
                   email_contents in
        (result :: fst r, snd r)
  end.

(** Phase 2: the loop over the selected candidates. *)
Fixpoint interview_loop (candidates : list ScreeningResult)
    (rows : list CandidateResult) (email_contents : gmap string EmailContent)
  : M W (list CandidateResult * gmap string EmailContent) :=
  match candidates with
  | [] => ret (rows, email_contents)
  | candidate :: rest =>
      let* scheduled_call := schedule_interview candidate in
      match scheduled_call with
      | Some sc =>
          let* email_content := send_interview_invitation candidate sc in
          let r := update_results rows candidate sc email_content
                     email_contents in
          interview_loop rest (fst r) (snd r)
      | None => interview_loop rest rows email_contents
      end
  end.

Definition error_result (message : string) : PipelineResult :=
  {| all_candidates := []; selected_candidates := []; results := [];
     email_contents := ∅; error := Some message |}.

Definition process_candidates (candidate_resume_paths : list string)
    (job_description : string) (min_score : PyFloat.float)
  : M W PipelineResult :=
  match candidate_resume_paths with
  | [] => ret (error_result "No candidate resume files provided")
  | _ =>
      if String.eqb job_description ""
      then ret (error_result "No job description provided")
      else
        let* p1 := screening_loop candidate_resume_paths job_description
                     min_score screened_init in
        let* p2 :=
          match p1_selected p1 with
          | [] => ret (p1_results p1, ∅)
          | _ => interview_loop (p1_selected p1) (p1_results p1) ∅
          end in
        ret {| all_candidates := p1_all p1;
               selected_candidates := p1_selected p1;
               results := fst p2;
               email_contents := snd p2;
               error := None |}
  end.
End Pipeline.

(** ** A scripted world, to run the pipeline on concrete inputs

    Files are an association list from paths to page texts; every agent
    answers with the next reply of its script and raises once the script
    is exhausted. *)

Module Script.

Record t := {
  files : list (string * list (option string));
  screening : list (reply ScreeningResult);
  scheduler : list (reply ScheduledCall);
  writer : list (reply EmailContent);
  sender : list (reply Empty_set);
  now : PyTime.datetime;
  draws : list N
}.

Fixpoint lookup_file (path : string) (fs : list (string * list (option string)))
  : option (list (option string)) :=
  match fs with
  | [] => None
  | (p, pages) :: rest => if String.eqb p path then Some pages else lookup_file path rest
  end.

Definition next {T} (q : list (reply T)) : reply T * list (reply T) :=
  match q with
  | [] => (Raised, [])
  | r :: q' => (r, q')
  end.

#[global] Instance capabilities : Capabilities t := {|
  read_pdf path w := (lookup_file path (files w), w);
  screening_arun _ w :=
    let '(r, q) := next (screening w) in
    (r, {| files := files w; screening := q; scheduler := scheduler w;
           writer := writer w; sender := sender w; now := now w;
           draws := draws w |});
  scheduler_arun _ w :=
    let '(r, q) := next (scheduler w) in
    (r, {| files := files w; screening := screening w; scheduler := q;
           writer := writer w; sender := sender w; now := now w;
           draws := draws w |});
  email_writer_arun _ w :=
    let '(r, q) := next (writer w) in
    (r, {| files := files w; screening := screening w;
           scheduler := scheduler w; writer := q; sender := sender w;
           now := now w; draws := draws w |});
  email_sender_arun _ w :=
    let '(r, q) := next (sender w) in
    (r, {| files := files w; screening := screening w;
           scheduler := scheduler w; writer := writer w; sender := q;
           now := now w; draws := draws w |});
  clock w := (now w, w);
  random_draw w :=
    match draws w with
    | [] => (0%N, w)
    | d :: ds =>
        (d, {| files := files w; screening := screening w;
               scheduler := scheduler w; writer := writer w;
               sender := sender w; now := now w; draws := ds |})
    end
|}.

Definition start (w : t) : state t := {| world := w; calls := [] |}.

(** 2026-11-04 19:21:05 *)
Definition a_moment : PyTime.datetime :=
  {| PyTime.ordinal := 739924; PyTime.hour := 19; PyTime.minute := 21;
     PyTime.second := 5; PyTime.microsecond := 0 |}.

Definition empty : t :=
  {| files := []; screening := []; scheduler := []; writer := [];
     sender := []; now := a_moment; draws := [] |}.

End Script.


(** ** Vocabulary of the properties *)

(** The index of the first row with a given email: what the scan of
    [update_results] stops at. *)
Fixpoint first_index (rows : list CandidateResult) (e : string) : option nat :=
  match rows with
  | [] => None
  | r :: rest =>
      if String.eqb (email r) e then Some O else S <$> first_index rest e
  end.

(** What later stages may change in a row: its status moves to [scheduled]
    or [email_sent], its identity stays. *)
Definition evolves (r0 r : CandidateResult) : Prop :=
  name r = name r0 /\ email r = email r0 /\ score r = score r0
  /\ feedback r = feedback r0
  /\ (status r = status r0 \/ status r = scheduled \/ status r = email_sent).

(** What phase 1 maintains between its lists. *)
Definition screened_ok (min_score : PyFloat.float) (acc : screened) : Prop :=
  p1_results acc = map (fun c => new_row c min_score) (p1_all acc)
  /\ p1_selected acc
     = List.filter (fun c => PyFloat.ge (sr_score c) min_score) (p1_all acc).

(** The match of the first pattern, in order, that matches at all. *)
Fixpoint first_match (patterns : list Re.regex) (s : string) : option Re.found :=
  match patterns with
  | [] => None
  | p :: rest =>
      match Re.search p s with
      | Some m => Some m
      | None => first_match rest s
      end
  end.

Section Vocabulary.
Context {W : Type} `{Capabilities W}.

(** [adds P m]: running [m] only appends calls, and every call it
    appends satisfies [P]. *)
Definition adds {A} (P : call -> Prop) (m : M W A) : Prop :=
  forall s, exists new, calls (snd (m s)) = calls s ++ new /\ Forall P new.

(** The calls of the screening phase. *)
Definition is_screening_call (c : call) : Prop :=
  match c with
  | CallExtract _ | CallScreen _ _ => True
  | _ => False
  end.

(** The calls of the scheduling and email steps made for [candidate]. *)
Definition is_interview_call_for (candidate : ScreeningResult) (c : call)
  : Prop :=
  match c with
  | CallSchedule x | CallWrite x _ | CallSend x _ => x = candidate
  | _ => False
  end.

(** What [screen_candidate] returns for each path of phase 1, in order,
    with the cache and the world threaded as the loop does. *)
Fixpoint screen_outcomes (paths : list string) (jd : string)
    (cache : gmap string string) (s : state W)
  : list (option ScreeningResult) :=
  match paths with
  | [] => []
  | p :: rest =>
      let out := screen_candidate p jd cache s in
      fst (fst out) :: screen_outcomes rest jd (snd (fst out)) (snd out)
  end.

(** The screening agent raises, returns no response, or returns a
    response without content. *)
Definition no_answer (resume_text jd : string) (w : W) : Prop :=
  match fst (screening_arun (screening_prompt resume_text jd) w) with
  | Raised => True
  | Returned None => True
  | Returned (Some c) => truthy c = false
  end.

(** The three ways a screening fails: the extraction of a resume that is
    not cached returns the empty text, or the agent gives no answer. *)
Definition screening_fails (path jd : string) (cache : gmap string string)
    (s : state W) : Prop :=
  match cache !! path with
  | None =>
      let out := extract_text_from_pdf path s in
      fst out = "" \/ no_answer (fst out) jd (world (snd out))
  | Some resume_text => no_answer resume_text jd (world s)
  end.
End Vocabulary.

(** A pattern, or a part of one, without group marker. *)
Definition markers_free (r : Re.regex) : Prop :=
  Forall (fun i => match i with Re.Atom _ _ => True | _ => False end) r.

(** The texts the captured number of a score pattern can be: digits, then
    possibly a dot and digits. *)
Definition is_number_text (t : string) : Prop :=
  exists ip, ip <> "" /\ PyStr.all PyStr.isdigit ip = true
    /\ (t = ip
        \/ exists fp, PyStr.all PyStr.isdigit fp = true /\ t = ip +:+ "." +:+ fp).

Definition first_char (s : string) : option ascii :=
  match s with
  | EmptyString => None
  | String c _ => Some c
  end.

Fixpoint last_char (s : string) : option ascii :=
  match s with
  | EmptyString => None
  | String c EmptyString => Some c
  | String _ s' => last_char s'
  end.

(** No blank at either end. *)
Definition trimmed (s : string) : Prop :=
  (forall c, first_char s = Some c -> PyStr.isspace c = false)
  /\ (forall c, last_char s = Some c -> PyStr.isspace c = false).

(** No line feed and no carriage return. *)
Definition one_line (s : string) : Prop :=
  PyStr.all (fun c => negb (Re.line_end c)) s = true.

(** The characters some atom of a pattern accepts. *)
Definition accepts (r : Re.regex) (c : ascii) : bool :=
  existsb (fun i => match i with Re.Atom p _ => p c | _ => false end) r.

(** No line feed. *)
Definition no_newline (s : string) : Prop :=
  PyStr.all (fun c => negb (Ascii.eqb c PyStr.newline)) s = true.

(** No blank character. *)
Definition no_blank (s : string) : Prop :=
  PyStr.all (fun c => negb (PyStr.isspace c)) s = true.

(** The candidate of a call to the scheduler. *)
Definition scheduled_candidate (k : call) : option ScreeningResult :=
  match k with
  | CallSchedule c => Some c
  | _ => None
  end.

Definition is_extract_call (k : call) : bool :=
  match k with
  | CallExtract _ => true
  | _ => false
  end.

Definition is_screen_call (k : call) : bool :=
  match k with
  | CallScreen _ _ => true
  | _ => false
  end.

(** How the status of a row goes with its optional fields and with the
    keys of [email_contents]. *)
Definition row_consistent (email_contents : gmap string EmailContent)
    (row : CandidateResult) : Prop :=
  match status row with
  | rejected | selected =>
      interview_time row = None /\ meeting_url row = None
      /\ email_subject row = None
  | scheduled =>
      is_Some (interview_time row) /\ is_Some (meeting_url row)
  | email_sent =>
      is_Some (interview_time row) /\ is_Some (meeting_url row)
      /\ is_Some (email_subject row)
      /\ is_Some (email_contents !! email row)
  end.

(** The number of calls of a kind. *)
Definition count (kind : call -> bool) (l : list call) : nat :=
  length (List.filter kind l).

(** [check_api_keys] of [streamlit_app.py].  The session state maps names
    to values of any kind, [of_text] being the texts among them; the
    environment maps names to texts.  The result is the session state as
    the function leaves it and the list it returns. *)
Definition required_keys : list string := ["OPENROUTER_API_KEY"].

Section Session.
Context {V : Type} (of_text : string -> V).

Fixpoint check_keys_loop (keys : list string)
    (session_state : gmap string V) (environ : gmap string string)
    (missing_keys : list string) : gmap string V * list string :=
  match keys with
  | [] => (session_state, missing_keys)
  | key :: rest =>
      match session_state !! key with
      | Some _ => check_keys_loop rest session_state environ missing_keys
      | None =>
          match environ !! key with
          | Some value =>
              check_keys_loop rest (<[ key := of_text value ]> session_state)
                environ missing_keys
          | None =>
              check_keys_loop rest session_state environ (missing_keys ++ [key])
          end
      end
  end.

Definition check_api_keys (session_state : gmap string V)
    (environ : gmap string string) : gmap string V * list string :=
  check_keys_loop required_keys session_state environ [].
End Session.

(** ** Concrete runs *)

Definition ann : ScreeningResult :=
  {| sr_name := "Ann Lee"; sr_email := "ann@x.org";
     sr_score := PyFloat.of_Z 3; sr_feedback := "Too junior." |}.

Definition bea : ScreeningResult :=
  {| sr_name := "Bea Roy"; sr_email := "bea@x.org";
     sr_score := PyFloat.of_Z 8; sr_feedback := "Strong match." |}.

(** Ann under the email address of Bea. *)
Definition ann_as_bea : ScreeningResult :=
  {| sr_name := "Ann Lee"; sr_email := "bea@x.org";
     sr_score := PyFloat.of_Z 3; sr_feedback := "Too junior." |}.

Definition invitation : EmailContent :=
  {| ec_subject := "Your interview"; ec_body := "Dear Bea, see you soon." |}.

(** Two readable resumes; the scheduler answers with a text, the writer
    with a structured email, the sender with a response. *)
Definition w_two : Script.t :=
  {| Script.files := [("a.pdf", [Some "Ann Lee, intern"]);
                      ("b.pdf", [Some "Bea Roy, engineer"])];
     Script.screening := [Returned (Some (Structured ann));
                          Returned (Some (Structured bea))];
     Script.scheduler := [Returned (Some (Text "ok"))];
     Script.writer := [Returned (Some (Structured invitation))];
     Script.sender := [Returned (Some (Text "sent"))];
     Script.now := Script.a_moment;
     Script.draws := [9%N; 12%N; 23456789%N] |}.

(** The same run, the first candidate screened under the email address
    of the second. *)
Definition w_shared : Script.t :=
  {| Script.files := Script.files w_two;
     Script.screening := [Returned (Some (Structured ann_as_bea));
                          Returned (Some (Structured bea))];
     Script.scheduler := Script.scheduler w_two;
     Script.writer := Script.writer w_two;
     Script.sender := Script.sender w_two;
     Script.now := Script.a_moment;
     Script.draws := Script.draws w_two |}.



(** The slot of Bea on [w_two]. *)
Definition slot : ScheduledCall :=
  {| sc_name := "Bea Roy"; sc_email := "bea@x.org";
     sc_call_time := "2026-11-07 14:00 IST";
     sc_url := "https://zoom.us/j/123456789" |}.

(** A writer that answers with a text; the sender would answer. *)
Definition w_text_email : Script.t :=
  {| Script.files := []; Script.screening := []; Script.scheduler := [];
     Script.writer := [Returned (Some (Text "Hello Bea, see you soon."))];
     Script.sender := [Returned (Some (Text "sent"))];
     Script.now := Script.a_moment; Script.draws := [] |}.

(** The paths of the run on [w_two]: the second file does not exist. *)
Definition paths_two : list string := ["a.pdf"; "c.pdf"; "b.pdf"].

(** The cache after the resume of Ann has been read. *)
Definition cache_ann : gmap string string := {[ "a.pdf" := "Ann Lee, intern" ]}.

(** A response of the screening agent in plain text. *)
Definition review : string :=
  "Name:  Alice Smith " +:+ nl +:+ "Contact: alice@x.org" +:+ nl
  +:+ "Overall Score: 85 of 100".

(** An environment that holds the API key. *)
Definition environ_key : gmap string string :=
  {[ "OPENROUTER_API_KEY" := "sk-test" ]}.

(** * Properties *)

(** ** Comparisons of floats *)

Lemma SFcompare_swap (x y : spec_float) :
  SFcompare y x = option_map CompOpp (SFcompare x y).
Proof.
  destruct x as [sx | sx | | sx mx ex], y as [sy | sy | | sy my ey];
    simpl; try reflexivity;
    try (destruct sx; reflexivity); try (destruct sy; reflexivity);
    try (destruct sx, sy; reflexivity).
  destruct sx, sy; try reflexivity;
    rewrite (Z.compare_antisym ex ey);
    destruct (ex ?= ey) eqn:E; simpl; try reflexivity;
    change (Pos.compare_cont Eq my mx) with (Pos.compare my mx);
    change (Pos.compare_cont Eq mx my) with (Pos.compare mx my);
    rewrite (Pos.compare_antisym mx my);
    destruct (mx ?= my)%positive; reflexivity.
Qed.

(** [x < y] excludes [x >= y]. *)
Lemma lt_excludes_ge (x y : PyFloat.float) :
  PyFloat.lt x y = true -> PyFloat.ge x y = false.
Proof.
  unfold PyFloat.lt, PyFloat.ge, SFltb, SFleb.
  rewrite (SFcompare_swap x y).
  destruct (SFcompare x y) as [[ | | ] | ]; simpl; congruence.
Qed.

(** [x >= y] excludes [x < y]. *)
Lemma ge_excludes_lt (x y : PyFloat.float) :
  PyFloat.ge x y = true -> PyFloat.lt x y = false.
Proof.
  intros Hge. destruct (PyFloat.lt x y) eqn:Hlt; [ | reflexivity ].
  apply lt_excludes_ge in Hlt. congruence.
Qed.

(** ** Rows and their updates *)

Lemma evolves_refl r : evolves r r.
Proof. unfold evolves; tauto. Qed.

Lemma evolves_trans r0 r1 r2 : evolves r0 r1 -> evolves r1 r2 -> evolves r0 r2.
Proof.
  unfold evolves. intros (?&?&?&?&?) (?&?&?&?&?).
  repeat split; try congruence. intuition congruence.
Qed.

Lemma evolves_updated r sc ec : evolves r (updated_row r sc ec).
Proof.
  unfold evolves, updated_row; simpl. repeat split.
  destruct ec; auto.
Qed.

Lemma Forall2_evolves_refl rows : Forall2 evolves rows rows.
Proof. induction rows; constructor; auto using evolves_refl. Qed.

Lemma Forall2_evolves_trans l0 l1 l2 :
  Forall2 evolves l0 l1 -> Forall2 evolves l1 l2 -> Forall2 evolves l0 l2.
Proof.
  intros H01. revert l2. induction H01; intros l2 H12; inversion H12; subst;
    constructor; eauto using evolves_trans.
Qed.

Lemma first_index_evolves rows rows' e :
  Forall2 evolves rows rows' -> first_index rows' e = first_index rows e.
Proof.
  induction 1 as [ | r r' l l' Hr _ IH ]; simpl; [ reflexivity | ].
  destruct Hr as (_ & -> & _). now rewrite IH.
Qed.

Lemma first_index_Some rows e i :
  first_index rows e = Some i ->
  exists row, rows !! i = Some row /\ email row = e
    /\ forall k rk, (k < i)%nat -> rows !! k = Some rk -> email rk <> e.
Proof.
  revert i. induction rows as [ | r rest IH ]; simpl; intros i Hi; [ discriminate | ].
  destruct (String.eqb (email r) e) eqn:E.
  - injection Hi as <-. exists r. apply String.eqb_eq in E.
    repeat split; auto. intros k rk Hk. lia.
  - destruct (first_index rest e) as [ i' | ] eqn:F; simpl in Hi; [ | discriminate ].
    injection Hi as <-. destruct (IH i' eq_refl) as (row & Hrow & He & Hbefore).
    exists row. repeat split; auto.
    intros [ | k ] rk Hk Hlk; simpl in Hlk.
    + injection Hlk as <-. now apply String.eqb_neq.
    + apply (Hbefore k); auto. lia.
Qed.

Lemma first_index_None rows e :
  first_index rows e = None -> forall row, row ∈ rows -> email row <> e.
Proof.
  induction rows as [ | r rest IH ]; simpl; intros Hn row Hin.
  - inversion Hin.
  - destruct (String.eqb (email r) e) eqn:E; [ discriminate | ].
    destruct (first_index rest e) eqn:F; [ discriminate | ].
    apply String.eqb_neq in E.
    inversion Hin; subst; auto.
Qed.

(** The scan of [update_results] rewrites the row at [first_index], and
    nothing when no row has the email. *)
Lemma update_results_rows rows c sc ec ecs :
  fst (update_results rows c sc ec ecs)
  = match first_index rows (sr_email c) with
    | Some i =>
        match rows !! i with
        | Some row => <[ i := updated_row row sc ec ]> rows
        | None => rows
        end
    | None => rows
    end.
Proof.
  induction rows as [ | r rest IH ]; simpl; [ reflexivity | ].
  destruct (String.eqb (email r) (sr_email c)); simpl; [ reflexivity | ].
  rewrite IH. destruct (first_index rest (sr_email c)) as [ i | ]; simpl;
    [ | reflexivity ].
  destruct (rest !! i); reflexivity.
Qed.

Lemma update_results_evolves rows c sc ec ecs :
  Forall2 evolves rows (fst (update_results rows c sc ec ecs)).
Proof.
  induction rows as [ | r rest IH ]; simpl; [ constructor | ].
  destruct (String.eqb (email r) (sr_email c)); simpl.
  - constructor; [ apply evolves_updated | apply Forall2_evolves_refl ].
  - constructor; [ apply evolves_refl | apply IH ].
Qed.

Lemma update_results_elsewhere rows c sc ec ecs j :
  first_index rows (sr_email c) <> Some j ->
  fst (update_results rows c sc ec ecs) !! j = rows !! j.
Proof.
  intros Hj. rewrite update_results_rows.
  destruct (first_index rows (sr_email c)) as [ i | ]; [ | reflexivity ].
  destruct (rows !! i) eqn:Hi; [ | reflexivity ].
  apply list_lookup_insert_ne. congruence.
Qed.

(** The keys [update_results] adds to [email_contents]. *)
Lemma update_results_keys rows c sc ec ecs e :
  is_Some (snd (update_results rows c sc ec ecs) !! e) ->
  is_Some (ecs !! e) \/ e = sr_email c.
Proof.
  induction rows as [ | r rest IH ]; simpl; [ auto | ].
  destruct (String.eqb (email r) (sr_email c)); simpl; [ | exact IH ].
  destruct ec as [ content | ]; [ | auto ].
  destruct (decide (sr_email c = e)) as [ -> | Hne ]; [ auto | ].
  rewrite lookup_insert_ne by assumption. auto.
Qed.

(** ** The record of calls *)

Create HintDb adds.

Section Facts.
Context {W : Type} `{Capabilities W}.

Lemma adds_ret {A} P (a : A) : adds P (ret a : M W A).
Proof. intros s. exists []. simpl. rewrite app_nil_r. auto. Qed.

Lemma adds_bind {A B} P (m : M W A) (f : A -> M W B) :
  adds P m -> (forall a, adds P (f a)) -> adds P (bind m f).
Proof.
  intros Hm Hf s. unfold bind.
  destruct (Hm s) as (n1 & E1 & F1).
  destruct (m s) as [a s1]; simpl in *.
  destruct (Hf a s1) as (n2 & E2 & F2).
  exists (n1 ++ n2). rewrite E2, E1, app_assoc. split; [ reflexivity | ].
  apply Forall_app; auto.
Qed.

Lemma adds_perform {A} (P : call -> Prop) c (f : W -> A * W) :
  P c -> adds P (perform c f).
Proof.
  intros Hc s. unfold perform. destruct (f (world s)) as [a w]; simpl.
  exists [c]. auto.
Qed.

Lemma adds_consult {A} P (f : W -> A * W) : adds P (consult f).
Proof.
  intros s. unfold consult. destruct (f (world s)) as [a w]; simpl.
  exists []. rewrite app_nil_r. auto.
Qed.

Lemma adds_randint P a b : adds P (randint a b).
Proof.
  unfold randint. apply adds_bind; [ apply adds_consult | ].
  intros r. apply adds_ret.
Qed.

Local Hint Resolve adds_ret adds_consult adds_randint : adds.

Lemma adds_extract path : adds is_screening_call (extract_text_from_pdf path).
Proof.
  unfold extract_text_from_pdf. apply adds_bind.
  - apply adds_perform. exact I.
  - intros [ texts | ]; apply adds_ret.
Qed.

Lemma adds_ask_screening text jd : adds is_screening_call (ask_screening text jd).
Proof.
  unfold ask_screening. apply adds_bind.
  - apply adds_perform. exact I.
  - intros [ | [ c | ] ]; auto with adds.
    destruct (negb (truthy c)); auto with adds.
    destruct c; auto with adds.
Qed.

Lemma adds_screen_candidate path jd cache :
  adds is_screening_call (screen_candidate path jd cache).
Proof.
  unfold screen_candidate. destruct (cache !! path).
  - apply adds_bind; [ apply adds_ask_screening | auto with adds ].
  - apply adds_bind; [ apply adds_extract | ]. intros text.
    destruct (String.eqb text ""); auto with adds.
    apply adds_bind; [ apply adds_ask_screening | auto with adds ].
Qed.

Lemma adds_screening_loop paths jd min acc :
  adds is_screening_call (screening_loop paths jd min acc).
Proof.
  revert acc. induction paths as [ | p rest IH ]; intros acc; simpl.
  - apply adds_ret.
  - apply adds_bind; [ apply adds_screen_candidate | ].
    intros [ [ r | ] cache ]; simpl; apply IH.
Qed.

Lemma adds_fallback_schedule P c : adds P (fallback_schedule c).
Proof.
  unfold fallback_schedule.
  apply adds_bind; [ auto with adds | ]. intros now.
  apply adds_bind; [ auto with adds | ]. intros days.
  destruct (PyTime.add_days now days); [ | auto with adds ].
  apply adds_bind; [ auto with adds | ]. intros hour.
  apply adds_bind; [ auto with adds | ]. intros id. apply adds_ret.
Qed.

Lemma adds_schedule_interview c :
  adds (is_interview_call_for c) (schedule_interview c).
Proof.
  unfold schedule_interview. apply adds_bind.
  - apply adds_perform. reflexivity.
  - intros [ | [ k | ] ]; auto with adds.
    destruct (negb (truthy k)); auto with adds.
    destruct k; auto using adds_fallback_schedule with adds.
Qed.

Lemma adds_send_interview_invitation c sc :
  adds (is_interview_call_for c) (send_interview_invitation c sc).
Proof.
  unfold send_interview_invitation. apply adds_bind.
  - apply adds_perform. reflexivity.
  - intros [ | [ k | ] ]; auto with adds.
    destruct (negb (truthy k)); auto with adds.
    destruct k; auto with adds.
    apply adds_bind; [ apply adds_perform; reflexivity | ].
    intros [ | [ ? | ] ]; auto with adds.
Qed.

Lemma adds_weaken {A} (P Q : call -> Prop) (m : M W A) :
  (forall c, P c -> Q c) -> adds P m -> adds Q m.
Proof.
  intros HPQ Hm s. destruct (Hm s) as (new & E & F).
  exists new. split; [ exact E | ]. eapply Forall_impl; eauto.
Qed.

(** The interview phase calls the scheduler and the email agents for the
    candidates it is given, and for nobody else. *)
Lemma adds_interview_loop candidates rows ecs :
  adds (fun c => is_screening_call c
                 \/ exists x, x ∈ candidates /\ is_interview_call_for x c)
       (interview_loop candidates rows ecs).
Proof.
  revert rows ecs. induction candidates as [ | c rest IH ]; intros rows ecs; simpl.
  - apply adds_ret.
  - assert (Hrest : forall rows ecs,
               adds (fun k => is_screening_call k
                       \/ exists x, x ∈ c :: rest /\ is_interview_call_for x k)
                    (interview_loop rest rows ecs)).
    { intros rows' ecs'. eapply adds_weaken; [ | apply IH ].
      intros k [ Hk | (x & Hx & Hk) ]; [ auto | ].
      right. exists x. split; [ now apply list_elem_of_further | exact Hk ]. }
    assert (Hc : forall k, is_interview_call_for c k ->
               is_screening_call k
               \/ exists x, x ∈ c :: rest /\ is_interview_call_for x k).
    { intros k Hk. right. exists c. split; [ apply list_elem_of_here | exact Hk ]. }
    apply adds_bind.
    + eapply adds_weaken; [ exact Hc | apply adds_schedule_interview ].
    + intros [ sc | ]; [ | apply Hrest ].
      apply adds_bind; [ | intros ec; apply Hrest ].
      eapply adds_weaken; [ exact Hc | apply adds_send_interview_invitation ].
Qed.
End Facts.

(** ** The two phases of [process_candidates] *)

Section Phases.
Context {W : Type} `{Capabilities W}.

Lemma screening_loop_ok paths jd min acc (s : state W) :
  screened_ok min acc ->
  screened_ok min (fst (screening_loop paths jd min acc s)).
Proof.
  revert acc s. induction paths as [ | p rest IH ]; intros acc s Hok; simpl.
  - exact Hok.
  - unfold bind. destruct (screen_candidate p jd (p1_cache acc) s) as [[o cache] s1].
    simpl. destruct Hok as [Hres Hsel].
    destruct o as [ c | ]; apply IH; split; simpl; auto.
    + rewrite Hres, map_app. reflexivity.
    + rewrite List.filter_app, <- Hsel. simpl.
      destruct (PyFloat.ge (sr_score c) min); [ reflexivity | ].
      now rewrite app_nil_r.
Qed.

Lemma interview_loop_rows candidates rows ecs (s : state W) :
  let out := fst (interview_loop candidates rows ecs s) in
  Forall2 evolves rows (fst out)
  /\ (forall j,
        (forall c, c ∈ candidates -> first_index rows (sr_email c) <> Some j) ->
        fst out !! j = rows !! j)
  /\ (forall e, is_Some (snd out !! e) ->
        is_Some (ecs !! e) \/ exists c, c ∈ candidates /\ sr_email c = e).
Proof.
  revert rows ecs s. induction candidates as [ | c rest IH ]; intros rows ecs s; simpl.
  - split; [ apply Forall2_evolves_refl | ]. split; auto.
  - unfold bind. destruct (schedule_interview c s) as [[ sc | ] s1].
    + destruct (send_interview_invitation c sc s1) as [ec s2].
      pose proof (update_results_evolves rows c sc ec ecs) as Hev.
      pose proof (update_results_elsewhere rows c sc ec ecs) as Hother.
      pose proof (update_results_keys rows c sc ec ecs) as Hkeys.
      destruct (update_results rows c sc ec ecs) as [rows1 ecs1]; simpl in *.
      destruct (IH rows1 ecs1 s2) as (Hev' & Hother' & Hkeys').
      split; [ eapply Forall2_evolves_trans; eauto | ]. split.
      * intros j Hj. rewrite Hother'.
        -- apply Hother. apply Hj. apply list_elem_of_here.
        -- intros x Hx. rewrite (first_index_evolves rows rows1) by assumption.
           apply Hj. now apply list_elem_of_further.
      * intros e He. destruct (Hkeys' e He) as [ He1 | (x & Hx & <-) ].
        -- destruct (Hkeys e He1) as [ ? | -> ]; [ auto | ].
           right. exists c. split; [ apply list_elem_of_here | reflexivity ].
        -- right. exists x. split; [ now apply list_elem_of_further | reflexivity ].
    + destruct (IH rows ecs s1) as (Hev' & Hother' & Hkeys').
      split; [ exact Hev' | ]. split.
      * intros j Hj. apply Hother'. intros x Hx. apply Hj.
        now apply list_elem_of_further.
      * intros e He. destruct (Hkeys' e He) as [ ? | (x & Hx & <-) ]; [ auto | ].
        right. exists x. split; [ now apply list_elem_of_further | reflexivity ].
Qed.

(** A run on valid input is phase 1 followed by phase 2. *)
Lemma process_candidates_run paths jd min (s : state W) :
  paths <> [] -> jd <> "" ->
  exists acc s1 out s2,
    screening_loop paths jd min screened_init s = (acc, s1)
    /\ interview_loop (p1_selected acc) (p1_results acc) ∅ s1 = (out, s2)
    /\ process_candidates paths jd min s
       = ({| all_candidates := p1_all acc;
             selected_candidates := p1_selected acc;
             results := fst out;
             email_contents := snd out;
             error := None |}, s2).
Proof.
  intros Hp Hjd. unfold process_candidates.
  destruct paths as [ | p rest ]; [ congruence | ].
  destruct (String.eqb jd "") eqn:E; [ apply String.eqb_eq in E; congruence | ].
  unfold bind.
  destruct (screening_loop (p :: rest) jd min screened_init s) as [acc s1].
  exists acc, s1.
  destruct (interview_loop (p1_selected acc) (p1_results acc) ∅ s1)
    as [out s2] eqn:E2.
  exists out, s2. split; [ reflexivity | ]. split; [ reflexivity | ].
  destruct (p1_selected acc); [ | rewrite E2; reflexivity ].
  simpl in E2. unfold ret in *. injection E2 as <- <-. reflexivity.
Qed.

(** On invalid input the run stops at once, with an error. *)
Lemma process_candidates_invalid paths jd min (s : state W) :
  paths = [] \/ jd = "" ->
  exists message,
    message <> ""
    /\ process_candidates paths jd min s = (error_result message, s).
Proof.
  intros Hbad. unfold process_candidates.
  destruct paths as [ | p rest ].
  - eexists. split; [ | reflexivity ]. discriminate.
  - destruct Hbad as [ Hbad | -> ]; [ discriminate | ]. simpl.
    eexists. split; [ | reflexivity ]. discriminate.
Qed.

Lemma error_free_run paths jd min (s : state W) :
  error (fst (process_candidates paths jd min s)) = None ->
  paths <> [] /\ jd <> "".
Proof.
  intros He. split; intros Hbad.
  - destruct (process_candidates_invalid paths jd min s (or_introl Hbad))
      as (m & _ & E). rewrite E in He. discriminate.
  - destruct (process_candidates_invalid paths jd min s (or_intror Hbad))
      as (m & _ & E). rewrite E in He. discriminate.
Qed.
End Phases.

(** ** Claims about the pipeline *)

Section Claims.
Context {W : Type} `{Capabilities W}.

(** The rows of a run, seen from its candidates: row [i] evolves from
    the fresh row of candidate [i]. *)
Lemma rows_of_run paths jd min (s : state W) :
  paths <> [] -> jd <> "" ->
  let r := fst (process_candidates paths jd min s) in
  Forall2 evolves (map (fun c => new_row c min) (all_candidates r)) (results r)
  /\ selected_candidates r
     = List.filter (fun c => PyFloat.ge (sr_score c) min) (all_candidates r)
  /\ (forall j,
        (forall c, c ∈ selected_candidates r ->
           first_index (map (fun c => new_row c min) (all_candidates r))
             (sr_email c) <> Some j) ->
        results r !! j = map (fun c => new_row c min) (all_candidates r) !! j)
  /\ (forall e, is_Some (email_contents r !! e) ->
        exists c, c ∈ selected_candidates r /\ sr_email c = e).
Proof.
  intros Hp Hjd.
  destruct (process_candidates_run paths jd min s Hp Hjd)
    as (acc & s1 & out & s2 & E1 & E2 & ->). simpl.
  assert (Hok : screened_ok min acc).
  { pose proof (screening_loop_ok paths jd min screened_init s) as Hok.
    rewrite E1 in Hok. apply Hok. split; reflexivity. }
  destruct Hok as [Hres Hsel].
  pose proof (interview_loop_rows (p1_selected acc) (p1_results acc) ∅ s1)
    as Hloop. rewrite E2 in Hloop. simpl in Hloop.
  destruct Hloop as (Hev & Hother & Hkeys). rewrite <- Hres.
  repeat split; auto.
  intros e He. destruct (Hkeys e He) as [ Hempty | ? ]; [ | assumption ].
  rewrite lookup_empty in Hempty. destruct Hempty; discriminate.
Qed.

(** C2: with an empty list of resume paths or an empty job description,
    [process_candidates] returns a non-empty [error], four empty
    collections, and leaves the world and the record of calls as they
    were: no screening, scheduling or email operation took place. *)
Theorem empty_input_short_circuits paths jd min (s : state W) :
  paths = [] \/ jd = "" ->
  let r := fst (process_candidates paths jd min s) in
  (exists message, error r = Some message /\ message <> "")
  /\ all_candidates r = [] /\ selected_candidates r = []
  /\ results r = [] /\ email_contents r = ∅
  /\ snd (process_candidates paths jd min s) = s.
Proof.
  intros Hbad.
  destruct (process_candidates_invalid paths jd min s Hbad) as (m & Hm & ->).
  simpl. repeat split; eauto.
Qed.

(** C10: in a result without [error], [results] is as long as
    [all_candidates], row [i] carries the name, email, score and
    feedback of candidate [i], and [selected_candidates] is the
    subsequence of [all_candidates] with [score >= min_score]. *)
Theorem results_mirror_all_candidates paths jd min (s : state W) :
  let r := fst (process_candidates paths jd min s) in
  error r = None ->
  length (results r) = length (all_candidates r)
  /\ (forall i c, all_candidates r !! i = Some c ->
        exists row, results r !! i = Some row
          /\ name row = sr_name c /\ email row = sr_email c
          /\ score row = sr_score c /\ feedback row = sr_feedback c)
  /\ selected_candidates r
     = List.filter (fun c => PyFloat.ge (sr_score c) min) (all_candidates r).
Proof.
  intros r Herr. destruct (error_free_run paths jd min s Herr) as [Hp Hjd].
  destruct (rows_of_run paths jd min s Hp Hjd) as (Hev & Hsel & _ & _).
  fold r in Hev, Hsel. split; [ | split; [ | exact Hsel ] ].
  - apply Forall2_length in Hev. rewrite length_map in Hev. auto.
  - intros i c Hc.
    assert (Hrow0 : map (fun c => new_row c min) (all_candidates r) !! i
                    = Some (new_row c min)).
    { change (map (fun c => new_row c min) (all_candidates r))
        with ((fun c => new_row c min) <$> all_candidates r).
      rewrite list_lookup_fmap, Hc. reflexivity. }
    destruct (Forall2_lookup_l _ _ _ _ _ Hev Hrow0) as (row & Hrow & Hevo).
    exists row. destruct Hevo as (? & ? & ? & ? & _). auto.
Qed.

Lemma fresh_row_lookup min (l : list ScreeningResult) i c :
  l !! i = Some c ->
  map (fun c => new_row c min) l !! i = Some (new_row c min).
Proof.
  intros Hc.
  change (map (fun c => new_row c min) l) with ((fun c => new_row c min) <$> l).
  rewrite list_lookup_fmap, Hc. reflexivity.
Qed.

Lemma candidates_need_valid_input paths jd min (s : state W) i c :
  all_candidates (fst (process_candidates paths jd min s)) !! i = Some c ->
  paths <> [] /\ jd <> "".
Proof.
  intros Hc. split; intros Hbad.
  - destruct (process_candidates_invalid paths jd min s (or_introl Hbad))
      as (m & _ & E). rewrite E in Hc. discriminate.
  - destruct (process_candidates_invalid paths jd min s (or_intror Hbad))
      as (m & _ & E). rewrite E in Hc. discriminate.
Qed.

(** The calls of a whole run: screening calls, and interview calls for
    selected candidates. *)
Lemma calls_of_run paths jd min (s : state W) :
  let r := fst (process_candidates paths jd min s) in
  exists new,
    calls (snd (process_candidates paths jd min s)) = calls s ++ new
    /\ Forall (fun k => is_screening_call k
                 \/ exists x, x ∈ selected_candidates r
                      /\ is_interview_call_for x k) new.
Proof.
  destruct (decide (paths = [])) as [ Hp | Hp ].
  { destruct (process_candidates_invalid paths jd min s (or_introl Hp))
      as (m & _ & ->). exists []. simpl. now rewrite app_nil_r. }
  destruct (decide (jd = "")) as [ Hjd | Hjd ].
  { destruct (process_candidates_invalid paths jd min s (or_intror Hjd))
      as (m & _ & ->). exists []. simpl. now rewrite app_nil_r. }
  destruct (process_candidates_run paths jd min s Hp Hjd)
    as (acc & s1 & out & s2 & E1 & E2 & ->). simpl.
  destruct (adds_screening_loop paths jd min screened_init s) as (n1 & C1 & F1).
  destruct (adds_interview_loop (p1_selected acc) (p1_results acc) ∅ s1)
    as (n2 & C2 & F2).
  rewrite E1 in C1. rewrite E2 in C2. simpl in C1, C2.
  exists (n1 ++ n2). rewrite C2, C1, app_assoc. split; [ reflexivity | ].
  apply Forall_app. split; [ | exact F2 ].
  eapply Forall_impl; [ exact F1 | ]. simpl. auto.
Qed.

(** C1, amended: for a screened candidate [c] with row [row], a score
    [>= min_score] ends in status selected, scheduled or email_sent; a
    score [< min_score] ends in status rejected, the row untouched,
    provided no selected candidate has the email of [c]; and no
    scheduling or email call of the run is made for a candidate with a
    score [< min_score]. *)
Theorem threshold_decides_status paths jd min (s : state W) i c row :
  let r := fst (process_candidates paths jd min s) in
  let s' := snd (process_candidates paths jd min s) in
  all_candidates r !! i = Some c ->
  results r !! i = Some row ->
  (PyFloat.ge (sr_score c) min = true ->
     status row = selected \/ status row = scheduled \/ status row = email_sent)
  /\ (PyFloat.lt (sr_score c) min = true ->
      (forall x, x ∈ selected_candidates r -> sr_email x <> sr_email c) ->
      status row = rejected /\ row = new_row c min)
  /\ (PyFloat.lt (sr_score c) min = true ->
      exists new, calls s' = calls s ++ new
        /\ Forall (fun k => ~ is_interview_call_for c k) new).
Proof.
  intros r s' Hc Hrow.
  destruct (candidates_need_valid_input paths jd min s i c Hc) as [Hp Hjd].
  destruct (rows_of_run paths jd min s Hp Hjd) as (Hev & Hsel & Huntouched & _).
  fold r in Hev, Hsel, Huntouched.
  pose proof (fresh_row_lookup min _ _ _ Hc) as Hrow0.
  split; [ | split ].
  - intros Hge.
    destruct (Forall2_lookup_l _ _ _ _ _ Hev Hrow0) as (row' & Hrow' & Hevo).
    rewrite Hrow in Hrow'. injection Hrow' as <-.
    destruct Hevo as (_ & _ & _ & _ & [ Hst | Hst ]); [ | auto ].
    left. rewrite Hst. simpl. now rewrite (ge_excludes_lt _ _ Hge).
  - intros Hlt Hdistinct.
    assert (Hsame : results r !! i = Some (new_row c min)).
    { rewrite Huntouched; [ exact Hrow0 | ].
      intros x Hx Hfirst.
      destruct (first_index_Some _ _ _ Hfirst) as (row0 & Hl & He & _).
      rewrite Hrow0 in Hl. injection Hl as <-.
      apply (Hdistinct x Hx). simpl in He. congruence. }
    rewrite Hrow in Hsame. injection Hsame as ->.
    split; [ | reflexivity ]. simpl. now rewrite Hlt.
  - intros Hlt.
    destruct (calls_of_run paths jd min s) as (new & Hcalls & Hnew).
    exists new. split; [ exact Hcalls | ].
    eapply Forall_impl; [ exact Hnew | ]. simpl.
    intros k [ Hk | (x & Hx & Hk) ] Hck.
    + destruct k; simpl in *; contradiction.
    + assert (x = c) by (destruct k; simpl in *; try contradiction; congruence).
      subst x.
      fold r in Hx. rewrite Hsel in Hx.
      apply list_elem_of_In, List.filter_In in Hx. destruct Hx as [_ Hge].
      apply lt_excludes_ge in Hlt. congruence.
Qed.

(** What the scan stores in [email_contents]: the email under the
    address of the candidate when a row matched and the email step
    succeeded, nothing otherwise. *)
Lemma update_results_contents rows c sc ec (ecs : gmap string EmailContent) :
  snd (update_results rows c sc ec ecs)
  = match first_index rows (sr_email c), ec with
    | Some _, Some e => <[ sr_email c := e ]> ecs
    | _, _ => ecs
    end.
Proof.
  induction rows as [ | r rest IH ]; cbn [update_results first_index snd].
  - reflexivity.
  - destruct (String.eqb (email r) (sr_email c)); cbn [snd].
    + destruct ec; reflexivity.
    + rewrite IH. destruct (first_index rest (sr_email c)); reflexivity.
Qed.

(** C6: when the interview of a selected candidate is scheduled, the
    loop goes on with rows that differ from the rows before at one
    place only, the first row whose email is the candidate's: there the
    interview time and the meeting URL are those of the scheduled call,
    the status is email_sent with the subject of the email when the email
    step succeeded and scheduled with the subject as it was when it
    failed, and name, email, score and feedback are kept; every other
    row, a later row with the same email included, is as it was, and
    [email_contents] gets the email under the address of the candidate
    exactly when the email step succeeded.  In a whole run a row that
    comes after another row with the same email is never updated. *)
Theorem first_match_only_is_updated :
  (forall c rest rows ecs (s s1 s2 : state W) sc ec,
      schedule_interview c s = (Some sc, s1) ->
      send_interview_invitation c sc s1 = (ec, s2) ->
      exists rows1 ecs1,
        interview_loop (c :: rest) rows ecs s
        = interview_loop rest rows1 ecs1 s2
        /\ length rows1 = length rows
        /\ match first_index rows (sr_email c) with
           | Some i =>
               exists row row',
                 rows !! i = Some row
                 /\ (forall k rk, (k < i)%nat -> rows !! k = Some rk ->
                       email rk <> sr_email c)
                 /\ email row = sr_email c
                 /\ rows1 !! i = Some row'
                 /\ interview_time row' = Some (sc_call_time sc)
                 /\ meeting_url row' = Some (sc_url sc)
                 /\ status row' = match ec with
                                  | Some _ => email_sent
                                  | None => scheduled
                                  end
                 /\ email_subject row' = match ec with
                                         | Some e => Some (ec_subject e)
                                         | None => email_subject row
                                         end
                 /\ name row' = name row /\ email row' = email row
                 /\ score row' = score row /\ feedback row' = feedback row
                 /\ (forall j, j <> i -> rows1 !! j = rows !! j)
                 /\ ecs1 = match ec with
                           | Some e => <[ sr_email c := e ]> ecs
                           | None => ecs
                           end
           | None => rows1 = rows /\ ecs1 = ecs
           end)
  /\ (forall paths jd min (s : state W) i j ci cj,
        let r := fst (process_candidates paths jd min s) in
        (i < j)%nat ->
        all_candidates r !! i = Some ci ->
        all_candidates r !! j = Some cj ->
        sr_email ci = sr_email cj ->
        results r !! j = Some (new_row cj min)).
Proof.
  split.
  - intros c rest rows ecs s s1 s2 sc ec Hsched Hsend.
    exists (fst (update_results rows c sc ec ecs)),
           (snd (update_results rows c sc ec ecs)).
    split; [ simpl; unfold bind; rewrite Hsched, Hsend; reflexivity | ].
    split; [ symmetry;
             exact (Forall2_length _ _ _ (update_results_evolves rows c sc ec ecs))
           | ].
    rewrite update_results_rows, update_results_contents.
    destruct (first_index rows (sr_email c)) as [ i | ] eqn:Hfirst.
    + destruct (first_index_Some _ _ _ Hfirst) as (row & Hrow & He & Hbefore).
      exists row, (updated_row row sc ec). rewrite Hrow.
      split; [ reflexivity | ]. split; [ exact Hbefore | ].
      split; [ exact He | ].
      split; [ apply list_lookup_insert_eq; eapply lookup_lt_Some; exact Hrow | ].
      split; [ reflexivity | ]. split; [ reflexivity | ].
      split; [ destruct ec; reflexivity | ].
      split; [ destruct ec; reflexivity | ].
      repeat (split; [ reflexivity | ]).
      split; [ | destruct ec; reflexivity ].
      intros j Hj. apply list_lookup_insert_ne. congruence.
    + split; [ reflexivity | destruct ec; reflexivity ].
  - intros paths jd min s i j ci cj r Hij Hi Hj Hmail.
    destruct (candidates_need_valid_input paths jd min s i ci Hi) as [Hp Hjd].
    destruct (rows_of_run paths jd min s Hp Hjd) as (_ & _ & Huntouched & _).
    fold r in Huntouched.
    rewrite Huntouched; [ now apply fresh_row_lookup | ].
    intros x Hx Hfirst.
    destruct (first_index_Some _ _ _ Hfirst) as (row0 & Hl & He & Hbefore).
    rewrite (fresh_row_lookup min _ _ _ Hj) in Hl. injection Hl as <-.
    apply (Hbefore i (new_row ci min) Hij (fresh_row_lookup min _ _ _ Hi)).
    simpl in *. congruence.
Qed.
End Claims.

(** ** Failed screenings *)

Section Screening_outcomes.
Context {W : Type} `{Capabilities W}.

Lemma ask_screening_no_answer text jd (s : state W) :
  no_answer text jd (world s) -> fst (ask_screening text jd s) = None.
Proof.
  unfold no_answer, ask_screening, bind, perform.
  destruct (screening_arun (screening_prompt text jd) (world s)) as [r w]; simpl.
  destruct r as [ | [ c | ] ]; try reflexivity.
  intros ->. reflexivity.
Qed.

Lemma screen_candidate_fails path jd cache (s : state W) :
  screening_fails path jd cache s ->
  fst (fst (screen_candidate path jd cache s)) = None.
Proof.
  unfold screening_fails, screen_candidate.
  destruct (cache !! path) as [ text | ] eqn:Hc.
  - intros Hno. unfold bind. simpl.
    pose proof (ask_screening_no_answer text jd s Hno) as E.
    destruct (ask_screening text jd s) as [r s1]. simpl in *. now subst.
  - unfold bind. destruct (extract_text_from_pdf path s) as [text s1]. simpl.
    intros [ -> | Hno ]; [ reflexivity | ].
    destruct (String.eqb text "") eqn:E; [ reflexivity | ].
    rewrite lookup_insert_eq. simpl.
    pose proof (ask_screening_no_answer text jd s1 Hno) as E'.
    destruct (ask_screening text jd s1) as [r s2]. simpl in *. now subst.
Qed.

Lemma screening_loop_all paths jd min acc (s : state W) :
  p1_all (fst (screening_loop paths jd min acc s))
  = p1_all acc ++ omap id (screen_outcomes paths jd (p1_cache acc) s).
Proof.
  revert acc s. induction paths as [ | p rest IH ]; intros acc s; simpl.
  - now rewrite app_nil_r.
  - unfold bind.
    destruct (screen_candidate p jd (p1_cache acc) s) as [[o cache] s1]. simpl.
    destruct o as [ c | ]; rewrite IH; simpl; [ | reflexivity ].
    now rewrite <- app_assoc.
Qed.

Lemma extract_calls path (s : state W) :
  calls (snd (extract_text_from_pdf path s)) = calls s ++ [CallExtract path].
Proof.
  unfold extract_text_from_pdf, bind, perform.
  destruct (read_pdf path (world s)) as [[ texts | ] w]; reflexivity.
Qed.

(** C7: the three failures of a screening make [screen_candidate] return
    [None]; and in a run on valid input [all_candidates] is the list of
    the results of the screenings that did not return [None], in the
    order of the paths, [results] has one row for each of them, and the
    selected candidates and the keys of [email_contents] all come from
    that list: a failed screening puts nothing in any collection. *)
Theorem failed_screening_is_dropped paths jd min (s : state W) :
  paths <> [] -> jd <> "" ->
  let r := fst (process_candidates paths jd min s) in
  let screened := omap id (screen_outcomes paths jd ∅ s) in
  (forall path cache (s0 : state W),
      screening_fails path jd cache s0 ->
      fst (fst (screen_candidate path jd cache s0)) = None)
  /\ all_candidates r = screened
  /\ Forall2 (fun c row => name row = sr_name c /\ email row = sr_email c
                           /\ score row = sr_score c
                           /\ feedback row = sr_feedback c)
             screened (results r)
  /\ (forall c, c ∈ selected_candidates r -> c ∈ screened)
  /\ (forall e, is_Some (email_contents r !! e) ->
        exists c, c ∈ screened /\ sr_email c = e).
Proof.
  intros Hp Hjd r screened.
  assert (Hall : all_candidates r = screened).
  { unfold r, screened.
    destruct (process_candidates_run paths jd min s Hp Hjd)
      as (acc & s1 & out & s2 & E1 & _ & ->). simpl.
    pose proof (screening_loop_all paths jd min screened_init s) as Ha.
    rewrite E1 in Ha. exact Ha. }
  destruct (rows_of_run paths jd min s Hp Hjd) as (Hev & Hsel & _ & Hkeys).
  fold r in Hev, Hsel, Hkeys. rewrite <- Hall.
  assert (Hin : forall c, c ∈ selected_candidates r -> c ∈ all_candidates r).
  { intros c Hc. rewrite Hsel in Hc.
    apply list_elem_of_In, List.filter_In in Hc. now apply list_elem_of_In. }
  split; [ intros path cache s0; apply screen_candidate_fails | ].
  split; [ reflexivity | ]. split; [ | split; [ exact Hin | ] ].
  - clear -Hev. revert Hev. generalize (results r). generalize (all_candidates r).
    induction l as [ | c l IH ]; intros rows Hev; inversion Hev; subst;
      constructor; auto.
    match goal with E : evolves _ _ |- _ => destruct E as (?&?&?&?&_) end.
    simpl in *. auto.
  - intros e He. destruct (Hkeys e He) as (c & Hc & <-). eauto.
Qed.

(** C9: when the resume is not cached and its extraction returns the
    empty text, [screen_candidate] returns [None] after the extraction
    call alone and hands the cache back unchanged; a later call for the
    same path with that cache starts by extracting again. *)
Theorem empty_extraction_is_not_cached path jd cache (s : state W) :
  cache !! path = None ->
  fst (extract_text_from_pdf path s) = "" ->
  let out := screen_candidate path jd cache s in
  fst (fst out) = None
  /\ snd (fst out) = cache
  /\ calls (snd out) = calls s ++ [CallExtract path]
  /\ forall jd' (s2 : state W), exists later,
       calls (snd (screen_candidate path jd' (snd (fst out)) s2))
       = calls s2 ++ CallExtract path :: later.
Proof.
  intros Hc Hempty out.
  assert (Hout : fst out = (None, cache)
                 /\ calls (snd out) = calls s ++ [CallExtract path]).
  { unfold out, screen_candidate. rewrite Hc. unfold bind.
    pose proof (extract_calls path s) as Hcalls.
    destruct (extract_text_from_pdf path s) as [text s1]. simpl in *.
    subst text. simpl. auto. }
  destruct Hout as [Hfst Hcalls]. rewrite Hfst. simpl.
  repeat split; auto.
  intros jd' s2. unfold screen_candidate. rewrite Hc. unfold bind.
  pose proof (extract_calls path s2) as Hcalls2.
  destruct (extract_text_from_pdf path s2) as [text s3]. simpl in *.
  destruct (String.eqb text ""); simpl.
  - exists []. exact Hcalls2.
  - rewrite lookup_insert_eq. simpl.
    destruct (adds_ask_screening text jd' s3) as (new & E & _).
    destruct (ask_screening text jd' s3) as [res s4]. simpl in *.
    exists new. rewrite E, Hcalls2, <- app_assoc. reflexivity.
Qed.
End Screening_outcomes.

(** ** The fallback parser of the screening step *)

Lemma lower_char_colon c : PyStr.lower_char c = ":"%char -> c = ":"%char.
Proof.
  destruct c as [[] [] [] [] [] [] [] []]; vm_compute; intros E;
    first [ reflexivity | discriminate E ].
Qed.

Lemma startswith_colon prefix line :
  PyStr.startswith prefix (PyStr.lower line) = true ->
  is_Some (PyStr.after_first ":" prefix) ->
  is_Some (PyStr.after_first ":" line).
Proof.
  revert line. induction prefix as [ | a prefix IH ]; intros line Hs Hp.
  - destruct Hp as (x & Hx). discriminate Hx.
  - destruct line as [ | b line ]; [ discriminate Hs | ].
    cbn [PyStr.startswith PyStr.lower PyStr.after_first] in *.
    destruct (Ascii.eqb a (PyStr.lower_char b)) eqn:Hab; [ | discriminate Hs ].
    apply Ascii.eqb_eq in Hab.
    destruct (Ascii.eqb a ":") eqn:Ha.
    + apply Ascii.eqb_eq in Ha. rewrite Ha in Hab.
      rewrite (lower_char_colon b (eq_sym Hab)), Ascii.eqb_refl.
      eexists; reflexivity.
    + destruct (Ascii.eqb b ":"); [ eexists; reflexivity | ].
      now apply IH.
Qed.

Lemma startswith_name_colon line :
  PyStr.startswith "name:" (PyStr.lower line) = true ->
  is_Some (PyStr.after_first ":" line).
Proof.
  intros Hs. apply (startswith_colon "name:" line Hs).
  eexists; reflexivity.
Qed.

Lemma contains_name_colon line :
  PyStr.contains "name:" (PyStr.lower line) = true ->
  is_Some (PyStr.after_first ":" line).
Proof.
  induction line as [ | c rest IH ]; [ discriminate | ].
  intros Hc.
  change (PyStr.contains "name:" (PyStr.lower (String c rest)))
    with (if PyStr.startswith "name:" (PyStr.lower (String c rest)) then true
          else PyStr.contains "name:" (PyStr.lower rest)) in Hc.
  destruct (PyStr.startswith "name:" (PyStr.lower (String c rest))) eqn:Hs.
  - now apply startswith_name_colon.
  - cbn [PyStr.after_first].
    destruct (Ascii.eqb c ":"); [ eexists; reflexivity | auto ].
Qed.

(** The scan for a name never raises. *)
Lemma scan_name_total name lines : is_Some (scan_name name lines).
Proof.
  induction lines as [ | line rest IH ]; simpl; [ eexists; reflexivity | ].
  destruct (PyStr.contains "name:" (PyStr.lower line)) eqn:Hc; [ | exact IH ].
  destruct (contains_name_colon line Hc) as (after & ->). eexists; reflexivity.
Qed.

Lemma scan_name_default name lines :
  Forall (fun line => PyStr.contains "name:" (PyStr.lower line) = false) lines ->
  scan_name name lines = Some name.
Proof.
  induction 1 as [ | line rest Hline _ IH ]; simpl; [ reflexivity | ].
  now rewrite Hline.
Qed.

(** The fallback parser always produces a result, with the score of
    [scan_score]. *)
Lemma parse_screening_text_total text :
  exists r, parse_screening_text text = Some r
    /\ sr_score r = scan_score PyFloat.five score_patterns text
    /\ sr_feedback r = PyStr.take 1000 text
    /\ (if PyStr.contains "name:" (PyStr.lower text)
        then scan_name "Unknown Candidate" (PyStr.split PyStr.newline text)
        else Some "Unknown Candidate") = Some (sr_name r).
Proof.
  unfold parse_screening_text.
  assert (Hn : is_Some (if PyStr.contains "name:" (PyStr.lower text)
                        then scan_name "Unknown Candidate"
                               (PyStr.split PyStr.newline text)
                        else Some "Unknown Candidate")).
  { destruct (PyStr.contains "name:" (PyStr.lower text));
      [ apply scan_name_total | eexists; reflexivity ]. }
  destruct Hn as (n & ->). simpl. eexists. repeat split; reflexivity.
Qed.

Lemma scan_score_first_match patterns text score m g v :
  first_match patterns (PyStr.lower text) = Some m ->
  Re.group1 m = Some g ->
  PyFloat.of_string g = Some v ->
  scan_score score patterns text
  = if PyFloat.gt v PyFloat.ten then PyFloat.div v PyFloat.ten else v.
Proof.
  intros Hm Hg Hv. induction patterns as [ | p rest IH ]; simpl in *;
    [ discriminate | ].
  destruct (Re.search p (PyStr.lower text)) as [ m' | ]; [ | auto ].
  injection Hm as ->. rewrite Hg. simpl. rewrite Hv. reflexivity.
Qed.

Lemma scan_score_no_match patterns text score :
  Forall (fun p => Re.search p (PyStr.lower text) = None) patterns ->
  scan_score score patterns text = score.
Proof.
  induction 1 as [ | p rest Hp _ IH ]; simpl; [ reflexivity | ].
  now rewrite Hp.
Qed.

(** C4: when the first score pattern that matches the lowered text
    captures a number above 10, the fallback parser produces a result
    whose score is that number divided by 10. *)
Theorem fallback_score_is_normalised text m g v :
  first_match score_patterns (PyStr.lower text) = Some m ->
  Re.group1 m = Some g ->
  PyFloat.of_string g = Some v ->
  PyFloat.gt v PyFloat.ten = true ->
  exists r, parse_screening_text text = Some r
    /\ sr_score r = PyFloat.div v PyFloat.ten.
Proof.
  intros Hm Hg Hv Hgt.
  destruct (parse_screening_text_total text) as (r & Hr & Hscore & _).
  exists r. split; [ exact Hr | ].
  rewrite Hscore, (scan_score_first_match _ _ _ _ _ _ Hm Hg Hv), Hgt.
  reflexivity.
Qed.

(** C5: when no line of the text contains name: in any case and none of the
    three score patterns matches the lowered text, the fallback parser
    produces a result named Unknown Candidate with score 5.0. *)
Theorem fallback_defaults text :
  Forall (fun line => PyStr.contains "name:" (PyStr.lower line) = false)
         (PyStr.split PyStr.newline text) ->
  Forall (fun p => Re.search p (PyStr.lower text) = None) score_patterns ->
  exists r, parse_screening_text text = Some r
    /\ sr_name r = "Unknown Candidate"
    /\ sr_score r = PyFloat.five.
Proof.
  intros Hname Hscore.
  destruct (parse_screening_text_total text) as (r & Hr & Hs & _ & Hn).
  exists r. split; [ exact Hr | ]. split.
  - rewrite (scan_name_default _ _ Hname) in Hn.
    destruct (PyStr.contains "name:" (PyStr.lower text)); congruence.
  - rewrite Hs. now apply scan_score_no_match.
Qed.

(** ** The simulated slot *)






Lemma append_assoc (a b c : string) : (a +:+ b) +:+ c = a +:+ (b +:+ c).
Proof.
  induction a as [ | x a IH ]; [ reflexivity | ].
  change (String x ((a +:+ b) +:+ c) = String x (a +:+ (b +:+ c))).
  now rewrite IH.
Qed.

Section Slots.
Context {W : Type} `{Capabilities W}.

Lemma randint_range a b (s : state W) :
  a <= b -> a <= fst (randint a b s) <= b.
Proof.
  intros Hab. unfold randint, bind, consult.
  destruct (random_draw (world s)) as [r w]; simpl.
  pose proof (Z.mod_pos_bound (Z.of_N r) (b - a + 1)). lia.
Qed.

Lemma randint_world a b (s : state W) :
  calls (snd (randint a b s)) = calls s.
Proof.
  unfold randint, bind, consult.
  destruct (random_draw (world s)) as [r w]; reflexivity.
Qed.



(** On a text answer of the writer, [send_interview_invitation] returns
    the fallback email after the call to the writer alone: the sender is
    not called. *)
Lemma fallback_email_skips_sender c sc text (s : state W) w1 :
  email_writer_arun (email_prompt c sc) (world s)
  = (Returned (Some (Text text)), w1) ->
  text <> "" ->
  send_interview_invitation c sc s
  = (Some (fallback_email c sc text),
     {| world := w1; calls := calls s ++ [CallWrite c sc] |}).
Proof.
  intros Hreply Htext. unfold send_interview_invitation, bind, perform.
  rewrite Hreply. cbn [truthy].
  destruct (String.eqb text "") eqn:E; [ apply String.eqb_eq in E; congruence | ].
  reflexivity.
Qed.

(** X15: on a structured answer of the writer, the step calls the sender
    once and succeeds, with the draft of the writer, exactly when the
    sender returns a response. *)
Lemma structured_email_needs_sender c sc e (s : state W) w1 :
  email_writer_arun (email_prompt c sc) (world s)
  = (Returned (Some (Structured e)), w1) ->
  let s1 := {| world := w1; calls := calls s ++ [CallWrite c sc] |} in
  let sent := email_sender_arun (send_prompt c e) w1 in
  send_interview_invitation c sc s
  = (match fst sent with
     | Returned (Some _) => Some e
     | _ => None
     end,
     {| world := snd sent; calls := calls s1 ++ [CallSend c e] |}).
Proof.
  intros Hreply. unfold send_interview_invitation, bind, perform.
  rewrite Hreply. cbn [truthy negb world calls].
  destruct (email_sender_arun (send_prompt c e) w1) as [[ | [ k | ] ] w2];
    reflexivity.
Qed.
End Slots.

(** ** The claims on concrete runs *)

(** C2 at a run with a resume and no job description. *)
Lemma empty_input_short_circuits_witness :
  let out := process_candidates ["a.pdf"] "" PyFloat.five (Script.start w_two) in
  (["a.pdf"] = [] \/ "" = "")
  /\ (exists message, error (fst out) = Some message /\ message <> "")
  /\ all_candidates (fst out) = [] /\ selected_candidates (fst out) = []
  /\ results (fst out) = [] /\ email_contents (fst out) = ∅
  /\ snd out = Script.start w_two.
Proof.
  split; [ right; reflexivity | ].
  apply (empty_input_short_circuits (W := Script.t)).
  right; reflexivity.
Defined.

(** C10 at the run of two readable resumes around an unreadable one. *)
Lemma results_mirror_all_candidates_witness :
  let r := fst (process_candidates paths_two "Engineer" PyFloat.five
                  (Script.start w_two)) in
  error r = None
  /\ length (results r) = length (all_candidates r)
  /\ (forall i c, all_candidates r !! i = Some c ->
        exists row, results r !! i = Some row
          /\ name row = sr_name c /\ email row = sr_email c
          /\ score row = sr_score c /\ feedback row = sr_feedback c)
  /\ selected_candidates r
     = List.filter (fun c => PyFloat.ge (sr_score c) PyFloat.five)
         (all_candidates r).
Proof.
  split; [ vm_compute; reflexivity | ].
  apply (results_mirror_all_candidates (W := Script.t)).
  vm_compute; reflexivity.
Defined.

(** C1 at the same run: Ann, below the threshold, stays rejected and is
    never called for; Bea, above it, ends with her email sent. *)
Lemma threshold_decides_status_witness :
  let out := process_candidates paths_two "Engineer" PyFloat.five
               (Script.start w_two) in
  all_candidates (fst out) !! 0%nat = Some ann
  /\ results (fst out) !! 0%nat = Some (new_row ann PyFloat.five)
  /\ PyFloat.lt (sr_score ann) PyFloat.five = true
  /\ status (new_row ann PyFloat.five) = rejected
  /\ exists new, calls (snd out) = [] ++ new
       /\ Forall (fun k => ~ is_interview_call_for ann k) new.
Proof.
  intros out.
  assert (Hc : all_candidates (fst out) !! 0%nat = Some ann)
    by (vm_compute; reflexivity).
  assert (Hrow : results (fst out) !! 0%nat = Some (new_row ann PyFloat.five))
    by (vm_compute; reflexivity).
  assert (Hlt : PyFloat.lt (sr_score ann) PyFloat.five = true)
    by (vm_compute; reflexivity).
  destruct (threshold_decides_status (W := Script.t) paths_two "Engineer"
              PyFloat.five (Script.start w_two) 0 ann
              (new_row ann PyFloat.five) Hc Hrow) as (_ & Hrej & Hcalls).
  split; [ exact Hc | ]. split; [ exact Hrow | ]. split; [ exact Hlt | ].
  split; [ vm_compute; reflexivity | exact (Hcalls Hlt) ].
Defined.

(** C1 as stated fails when a rejected candidate shares the email of a
    selected one: the row of the rejected candidate is the first match of
    the scan and ends with status email_sent. *)
Lemma rejected_row_can_end_email_sent :
  let r := fst (process_candidates ["a.pdf"; "b.pdf"] "Engineer" PyFloat.five
                  (Script.start w_shared)) in
  exists c row,
    all_candidates r !! 0%nat = Some c
    /\ results r !! 0%nat = Some row
    /\ PyFloat.lt (sr_score c) PyFloat.five = true
    /\ status row = email_sent
    /\ status row <> rejected.
Proof.
  eexists _, _. split; [ vm_compute; reflexivity | ].
  split; [ vm_compute; reflexivity | ].
  split; [ vm_compute; reflexivity | ].
  split; [ reflexivity | discriminate ].
Defined.

(** C6 at the rows of the run with a shared email: the scheduled
    interview of Bea writes her slot, the status email_sent and the
    subject of her invitation into row 0, the first row with her email,
    and stores the invitation under her address; her own row, which
    comes second, is left as phase 1 made it, in the step and in the
    whole run. *)
Lemma first_match_only_is_updated_witness :
  let rows := [new_row ann_as_bea PyFloat.five; new_row bea PyFloat.five] in
  let r := fst (process_candidates ["a.pdf"; "b.pdf"] "Engineer" PyFloat.five
                  (Script.start w_shared)) in
  first_index rows (sr_email bea) = Some 0%nat
  /\ (exists rows1 ecs1 s2,
        interview_loop [bea] rows ∅ (Script.start w_shared)
        = interview_loop [] rows1 ecs1 s2
        /\ length rows1 = 2%nat
        /\ (exists row',
              rows1 !! 0%nat = Some row'
              /\ interview_time row' = Some "2026-11-07 14:00 IST"
              /\ meeting_url row' = Some "https://zoom.us/j/123456789"
              /\ status row' = email_sent
              /\ email_subject row' = Some "Your interview"
              /\ name row' = "Ann Lee" /\ email row' = "bea@x.org")
        /\ rows1 !! 1%nat = Some (new_row bea PyFloat.five)
        /\ ecs1 = <[ "bea@x.org" := invitation ]> ∅)
  /\ all_candidates r !! 0%nat = Some ann_as_bea
  /\ all_candidates r !! 1%nat = Some bea
  /\ results r !! 1%nat = Some (new_row bea PyFloat.five).
Proof.
  intros rows r.
  pose (o1 := schedule_interview bea (Script.start w_shared)).
  pose (o2 := send_interview_invitation bea slot (snd o1)).
  assert (Hsched : schedule_interview bea (Script.start w_shared)
                   = (Some slot, snd o1)) by (vm_compute; reflexivity).
  assert (Hsend : send_interview_invitation bea slot (snd o1)
                  = (Some invitation, snd o2)) by (vm_compute; reflexivity).
  assert (Hfirst : first_index rows (sr_email bea) = Some 0%nat)
    by (vm_compute; reflexivity).
  assert (H0 : all_candidates r !! 0%nat = Some ann_as_bea)
    by (vm_compute; reflexivity).
  assert (H1 : all_candidates r !! 1%nat = Some bea)
    by (vm_compute; reflexivity).
  destruct (first_match_only_is_updated (W := Script.t)) as [Hstep Hrun].
  split; [ exact Hfirst | ]. split.
  - destruct (Hstep bea [] rows ∅ _ _ _ slot (Some invitation) Hsched Hsend)
      as (rows1 & ecs1 & Hloop & Hlen & Hmatch).
    rewrite Hfirst in Hmatch.
    destruct Hmatch as (row & row' & Hrow & _ & _ & Hrow' & Htime & Hurl
                        & Hstatus & Hsubject & Hname & Hemail & _ & _
                        & Hothers & Hstored).
    injection Hrow as <-.
    exists rows1, ecs1, (snd o2). split; [ exact Hloop | ].
    split; [ exact Hlen | ]. split; [ | split; [ | exact Hstored ] ].
    + exists row'. repeat split; assumption.
    + rewrite (Hothers 1%nat); [ reflexivity | discriminate ].
  - split; [ exact H0 | ]. split; [ exact H1 | ].
    exact (Hrun ["a.pdf"; "b.pdf"] "Engineer" PyFloat.five
             (Script.start w_shared) 0%nat 1%nat ann_as_bea bea ltac:(lia)
             H0 H1 eq_refl).
Defined.

(** C7 at the run of two readable resumes around an unreadable one: the
    unreadable resume leaves two candidates, two rows and one email. *)
Lemma failed_screening_is_dropped_witness :
  let r := fst (process_candidates paths_two "Engineer" PyFloat.five
                  (Script.start w_two)) in
  screen_outcomes paths_two "Engineer" ∅ (Script.start w_two)
  = [Some ann; None; Some bea]
  /\ all_candidates r = [ann; bea]
  /\ length (results r) = 2%nat
  /\ (forall e, is_Some (email_contents r !! e) ->
        exists c, c ∈ [ann; bea] /\ sr_email c = e).
Proof.
  intros r.
  assert (Hout : screen_outcomes paths_two "Engineer" ∅ (Script.start w_two)
                 = [Some ann; None; Some bea]) by (vm_compute; reflexivity).
  destruct (failed_screening_is_dropped (W := Script.t) paths_two "Engineer"
              PyFloat.five (Script.start w_two)
              ltac:(discriminate) ltac:(discriminate))
    as (_ & Hall & Hrows & _ & Hkeys).
  fold r in Hall, Hrows, Hkeys. rewrite Hout in Hall, Hrows, Hkeys.
  split; [ exact Hout | ]. split; [ exact Hall | ].
  split; [ | exact Hkeys ].
  apply Forall2_length in Hrows. simpl in Hrows. congruence.
Defined.

(** C9 at an unreadable resume. *)
Lemma empty_extraction_is_not_cached_witness :
  let out := screen_candidate "c.pdf" "Engineer" ∅ (Script.start w_two) in
  (∅ : gmap string string) !! "c.pdf" = None
  /\ fst (extract_text_from_pdf "c.pdf" (Script.start w_two)) = ""
  /\ fst (fst out) = None
  /\ snd (fst out) = ∅
  /\ calls (snd out) = [] ++ [CallExtract "c.pdf"]
  /\ forall jd' (s2 : state Script.t), exists later,
       calls (snd (screen_candidate "c.pdf" jd' (snd (fst out)) s2))
       = calls s2 ++ CallExtract "c.pdf" :: later.
Proof.
  split; [ reflexivity | ]. split; [ reflexivity | ].
  apply (empty_extraction_is_not_cached (W := Script.t)); reflexivity.
Defined.

(** C4 at a text with a score out of 100. *)
Lemma fallback_score_is_normalised_witness :
  PyFloat.of_string "85" = Some (S754_finite false 5981343255101440 (-46))
  /\ PyFloat.gt (S754_finite false 5981343255101440 (-46)) PyFloat.ten = true
  /\ exists r, parse_screening_text "Overall Score: 85 of 100" = Some r
       /\ sr_score r
          = PyFloat.div (S754_finite false 5981343255101440 (-46)) PyFloat.ten.
Proof.
  split; [ vm_compute; reflexivity | ]. split; [ vm_compute; reflexivity | ].
  apply (fallback_score_is_normalised "Overall Score: 85 of 100"
           {| Re.group0 := "score: 85"; Re.group1 := Some "85" |} "85").
  - vm_compute; reflexivity.
  - reflexivity.
  - vm_compute; reflexivity.
  - vm_compute; reflexivity.
Defined.

(** C5 at a text without name and without score. *)
Lemma fallback_defaults_witness :
  exists r, parse_screening_text "A solid profile, bob@x.org" = Some r
    /\ sr_name r = "Unknown Candidate"
    /\ sr_score r = PyFloat.five.
Proof.
  apply (fallback_defaults "A solid profile, bob@x.org").
  - repeat constructor.
  - repeat constructor.
Defined.



(** C3 fails on the code: when the writer answers with a text, the email
    step returns an [EmailContent] and the sender was never called. *)
Theorem text_email_succeeds_without_sending :
  let out := send_interview_invitation bea slot (Script.start w_text_email) in
  fst out
  = Some {| ec_subject := "Interview Invitation - Backend Engineer Position";
            ec_body :=
              template_body bea slot |}
  /\ calls (snd out) = [CallWrite bea slot]
  /\ Script.sender (world (snd out)) = Script.sender w_text_email.
Proof. vm_compute. repeat split; reflexivity. Qed.

(** * Further properties of the code *)

(** ** Strings *)

Lemma len_app a b : PyStr.len (a +:+ b) = (PyStr.len a + PyStr.len b)%nat.
Proof.
  induction a as [ | x a IH ]; [ reflexivity | ].
  change (S (PyStr.len (a +:+ b)) = S (PyStr.len a + PyStr.len b)).
  now rewrite IH.
Qed.

Lemma take_app a b : PyStr.take (PyStr.len a) (a +:+ b) = a.
Proof.
  induction a as [ | x a IH ]; [ reflexivity | ].
  change (String x (PyStr.take (PyStr.len a) (a +:+ b)) = String x a).
  now rewrite IH.
Qed.

Lemma between_app a b : Re.between (a +:+ b) b = a.
Proof.
  unfold Re.between. rewrite len_app.
  replace (PyStr.len a + PyStr.len b - PyStr.len b)%nat with (PyStr.len a) by lia.
  apply take_app.
Qed.

Lemma all_app p a b :
  PyStr.all p (a +:+ b) = PyStr.all p a && PyStr.all p b.
Proof.
  induction a as [ | x a IH ]; [ reflexivity | ].
  change (p x && PyStr.all p (a +:+ b) = p x && PyStr.all p a && PyStr.all p b).
  rewrite IH. now rewrite andb_assoc.
Qed.

Lemma all_impl (p q : ascii -> bool) s :
  (forall c, p c = true -> q c = true) ->
  PyStr.all p s = true -> PyStr.all q s = true.
Proof.
  intros Hpq. induction s as [ | c s IH ]; [ reflexivity | ].
  cbn [PyStr.all]. intros [Hc Hs]%andb_true_iff.
  rewrite (Hpq c Hc), (IH Hs). reflexivity.
Qed.

(** ** What a match has read *)

Section Inversion.
  Context {R : Type} (p : ascii -> bool) (k : string -> option R).

Lemma one_inv s r :
  Re.one p k s = Some r ->
  exists c s', s = String c s' /\ p c = true /\ k s' = Some r.
Proof.
  destruct s as [ | c s' ]; [ discriminate | ]. cbn [Re.one].
  destruct (p c) eqn:Hc; [ | discriminate ]. eauto.
Qed.

Lemma greedy_inv s r :
  Re.greedy p k s = Some r ->
  exists chars s', s = chars +:+ s' /\ PyStr.all p chars = true /\ k s' = Some r.
Proof.
  induction s as [ | c s IH ]; cbn [Re.greedy].
  - intros Hk. exists EmptyString, EmptyString. auto.
  - destruct (p c) eqn:Hc.
    + destruct (Re.greedy p k s) as [ r' | ] eqn:Hg.
      * intros [= <-]. destruct (IH eq_refl) as (chars & s' & -> & Hall & Hk).
        exists (String c chars), s'. cbn [PyStr.all]. rewrite Hc, Hall. auto.
      * intros Hk. exists EmptyString, (String c s). auto.
    + intros Hk. exists EmptyString, (String c s). auto.
Qed.

(** A lazy repetition stops at the first place where the rest matches:
    when the rest always matches at a character of [stop], no character
    of [stop] is read. *)
Lemma lazy_inv (stop : ascii -> bool) s r :
  (forall c s', stop c = true -> is_Some (k (String c s'))) ->
  Re.lazy p k s = Some r ->
  exists chars s',
    s = chars +:+ s'
    /\ PyStr.all (fun c => p c && negb (stop c)) chars = true
    /\ k s' = Some r.
Proof.
  intros Hstop. induction s as [ | c s IH ]; cbn [Re.lazy].
  - destruct (k EmptyString) eqn:Hk; [ | discriminate ].
    intros [= <-]. exists EmptyString, EmptyString. auto.
  - destruct (k (String c s)) as [ r' | ] eqn:Hk.
    + intros [= <-]. exists EmptyString, (String c s). auto.
    + destruct (p c) eqn:Hc; [ | discriminate ]. intros Hl.
      destruct (IH Hl) as (chars & s' & -> & Hall & Hk').
      exists (String c chars), s'. cbn [PyStr.all]. rewrite Hc, Hall.
      destruct (stop c) eqn:Hs; [ | auto ].
      destruct (Hstop c (chars +:+ s') Hs) as (x & Hx). congruence.
Qed.
End Inversion.

Lemma run_markers_free post g s rest g' :
  markers_free post ->
  Re.run post g s = Some (rest, g') ->
  g' = g /\ exists chars, s = chars +:+ rest.
Proof.
  intros Hfree. revert s. induction Hfree as [ | i post Hi _ IH ]; intros s.
  - cbn [Re.run]. intros [= <- <-]. split; [ reflexivity | ]. now exists EmptyString.
  - destruct i as [ p q | | ]; try contradiction.
    assert (Hone : forall s, Re.one p (Re.run post g) s = Some (rest, g') ->
                     g' = g /\ exists chars, s = chars +:+ rest).
    { intros s0 (c & s1 & -> & _ & Hk)%one_inv.
      destruct (IH _ Hk) as (-> & chars & ->).
      split; [ reflexivity | ]. now exists (String c chars). }
    destruct q; cbn [Re.run].
    + apply Hone.
    + destruct (Re.one p (Re.run post g) s) eqn:E.
      * intros [= ->]. now apply Hone.
      * apply IH.
    + intros (chars & s1 & -> & _ & Hk)%greedy_inv.
      destruct (IH _ Hk) as (-> & more & ->).
      split; [ reflexivity | ]. exists (chars +:+ more). now rewrite append_assoc.
    + intros (c & s0 & -> & _ & (chars & s1 & -> & _ & Hk)%greedy_inv)%one_inv.
      destruct (IH _ Hk) as (-> & more & ->).
      split; [ reflexivity | ]. exists (String c (chars +:+ more)).
      rewrite <- append_assoc. reflexivity.
    + intros Hl.
      destruct (lazy_inv p (Re.run post g) (fun _ => false) s (rest, g')
                  ltac:(discriminate) Hl) as (chars & s1 & -> & _ & Hk).
      destruct (IH _ Hk) as (-> & more & ->).
      split; [ reflexivity | ]. exists (chars +:+ more). now rewrite append_assoc.
Qed.

Lemma run_prefix pre tail g s r :
  markers_free pre ->
  Re.run (pre ++ tail) g s = Some r ->
  exists chars s1, s = chars +:+ s1 /\ Re.run tail g s1 = Some r.
Proof.
  intros Hfree. revert s. induction Hfree as [ | i pre Hi _ IH ]; intros s.
  - cbn [app]. intros Hr. now exists EmptyString, s.
  - destruct i as [ p q | | ]; try contradiction.
    assert (Hone : forall s, Re.one p (Re.run (pre ++ tail) g) s = Some r ->
                     exists chars s1, s = chars +:+ s1 /\ Re.run tail g s1 = Some r).
    { intros s0 (c & s1 & -> & _ & Hk)%one_inv.
      destruct (IH _ Hk) as (chars & s2 & -> & Ht).
      now exists (String c chars), s2. }
    change ((Re.Atom p q :: pre) ++ tail) with (Re.Atom p q :: (pre ++ tail)).
    destruct q; cbn [Re.run].
    + apply Hone.
    + destruct (Re.one p (Re.run (pre ++ tail) g) s) eqn:E.
      * intros [= ->]. now apply Hone.
      * apply IH.
    + intros (chars & s1 & -> & _ & Hk)%greedy_inv.
      destruct (IH _ Hk) as (more & s2 & -> & Ht).
      exists (chars +:+ more), s2. now rewrite append_assoc.
    + intros (c & s0 & -> & _ & (chars & s1 & -> & _ & Hk)%greedy_inv)%one_inv.
      destruct (IH _ Hk) as (more & s2 & -> & Ht).
      exists (String c (chars +:+ more)), s2.
      split; [ rewrite <- append_assoc; reflexivity | exact Ht ].
    + intros Hl.
      destruct (lazy_inv p (Re.run (pre ++ tail) g) (fun _ => false) s r
                  ltac:(discriminate) Hl) as (chars & s1 & -> & _ & Hk).
      destruct (IH _ Hk) as (more & s2 & -> & Ht).
      exists (chars +:+ more), s2. now rewrite append_assoc.
Qed.

Lemma search_inv r s f :
  Re.search r s = Some f ->
  exists before s' res,
    s = before +:+ s'
    /\ Re.run r {| Re.m_open := None; Re.m_close := None |} s' = Some res
    /\ f = Re.found_at s' res.
Proof.
  induction s as [ | c s IH ]; cbn [Re.search].
  - destruct (Re.run r _ EmptyString) as [ res | ] eqn:E; [ | discriminate ].
    intros [= <-]. now exists EmptyString, EmptyString, res.
  - destruct (Re.run r _ (String c s)) as [ res | ] eqn:E.
    + intros [= <-]. now exists EmptyString, (String c s), res.
    + intros (before & s' & res & -> & Hr & ->)%IH.
      now exists (String c before), s', res.
Qed.

(** ** The captured number always parses *)

Lemma number_group_capture post g s rest g' :
  markers_free post ->
  Re.run (Re.number_group ++ post) g s = Some (rest, g') ->
  exists b, Re.m_open g' = Some s /\ Re.m_close g' = Some b
    /\ is_number_text (Re.between s b).
Proof.
  intros Hfree. unfold Re.number_group. cbn [app Re.run Re.m_close].
  intros (c & s0 & -> & Hc & (ds & s1 & -> & Hds & Hk)%greedy_inv)%one_inv.
  set (g1 := {| Re.m_open := Some (String c (ds +:+ s1)); Re.m_close := Re.m_close g |}) in *.
  assert (Htail : forall s2 r,
             Re.greedy PyStr.isdigit
               (fun s => Re.run post {| Re.m_open := Re.m_open g1; Re.m_close := Some s |} s)
               s2 = Some r ->
             exists fs s3, s2 = fs +:+ s3 /\ PyStr.all PyStr.isdigit fs = true
               /\ r = (fst r, {| Re.m_open := Re.m_open g1; Re.m_close := Some s3 |})).
  { intros s2 [rest' g2] (fs & s3 & -> & Hfs & Hp)%greedy_inv.
    destruct (run_markers_free _ _ _ _ _ Hfree Hp) as [-> _].
    now exists fs, s3. }
  destruct (Re.one (Re.lit ".") _ s1) as [ r | ] eqn:Hdot.
  - injection Hk as ->.
    apply one_inv in Hdot. destruct Hdot as (d & s2 & -> & Hd & Hg).
    apply Ascii.eqb_eq in Hd. subst d.
    destruct (Htail _ _ Hg) as (fs & s3 & -> & Hfs & E).
    injection E as ->. exists s3. cbn [Re.m_open Re.m_close g1].
    split; [ reflexivity | ]. split; [ reflexivity | ].
    replace (String c (ds +:+ String "." (fs +:+ s3)))
      with ((String c ds +:+ "." +:+ fs) +:+ s3).
    + rewrite between_app. exists (String c ds). split; [ discriminate | ].
      split; [ cbn [PyStr.all]; now rewrite Hc, Hds | ].
      right. now exists fs.
    + rewrite !append_assoc. reflexivity.
  - destruct (Htail _ _ Hk) as (fs & s3 & -> & Hfs & E).
    injection E as ->. exists s3. cbn [Re.m_open Re.m_close g1].
    split; [ reflexivity | ]. split; [ reflexivity | ].
    replace (String c (ds +:+ fs +:+ s3)) with (String c (ds +:+ fs) +:+ s3)
      by (rewrite <- append_assoc; reflexivity).
    rewrite between_app. exists (String c (ds +:+ fs)). split; [ discriminate | ].
    split; [ | now left ].
    cbn [PyStr.all]. rewrite all_app, Hc, Hds, Hfs. reflexivity.
Qed.

Lemma score_pattern_capture r pre post s m :
  r = pre ++ Re.number_group ++ post ->
  markers_free pre -> markers_free post ->
  Re.search r s = Some m ->
  exists g, Re.group1 m = Some g /\ is_number_text g.
Proof.
  intros -> Hpre Hpost (before & s' & [rest g'] & -> & Hrun & ->)%search_inv.
  apply run_prefix in Hrun; [ | exact Hpre ].
  destruct Hrun as (chars & s1 & -> & Hrun).
  destruct (number_group_capture _ _ _ _ _ Hpost Hrun) as (b & Ho & Hc & Hn).
  unfold Re.found_at. cbn [snd Re.group1]. rewrite Ho, Hc. eauto.
Qed.

Lemma digit_is_not_dot c : PyStr.isdigit c = true -> Ascii.eqb c "." = false.
Proof.
  intros Hc. destruct (Ascii.eqb c ".") eqn:E; [ | reflexivity ].
  apply Ascii.eqb_eq in E. subst c. discriminate Hc.
Qed.

Lemma cut_at_dot_digits ds rest :
  PyStr.all PyStr.isdigit ds = true ->
  PyFloat.cut_at_dot (ds +:+ rest)
  = (ds +:+ fst (PyFloat.cut_at_dot rest), snd (PyFloat.cut_at_dot rest)).
Proof.
  induction ds as [ | c ds IH ]; cbn [PyStr.all]; intros Hall.
  - change (EmptyString +:+ rest) with rest.
    destruct (PyFloat.cut_at_dot rest); reflexivity.
  - apply andb_true_iff in Hall. destruct Hall as [Hc Hds].
    change (String c ds +:+ rest) with (String c (ds +:+ rest)).
    cbn [PyFloat.cut_at_dot]. rewrite (digit_is_not_dot c Hc), (IH Hds).
    reflexivity.
Qed.

Lemma digits_value_all s acc :
  PyStr.all PyStr.isdigit s = true -> is_Some (PyFloat.digits_value acc s).
Proof.
  revert acc. induction s as [ | c s IH ]; intros acc; cbn [PyStr.all PyFloat.digits_value].
  - eauto.
  - intros [Hc Hs]%andb_true_iff. rewrite Hc. now apply IH.
Qed.

Lemma app_empty_r (s : string) : s +:+ "" = s.
Proof.
  induction s as [ | c s IH ]; [ reflexivity | ].
  change (String c (s +:+ "") = String c s). now rewrite IH.
Qed.

(** [float] accepts every text a score pattern can capture. *)
Lemma of_string_number t : is_number_text t -> is_Some (PyFloat.of_string t).
Proof.
  intros (ip & Hne & Hip & Ht). unfold PyFloat.of_string.
  assert (Hcut : exists fp, PyStr.all PyStr.isdigit (default EmptyString fp) = true
                   /\ PyFloat.cut_at_dot t = (ip, fp)).
  { destruct Ht as [ -> | (fp & Hfp & ->) ].
    - exists None. split; [ reflexivity | ].
      rewrite <- (app_empty_r ip) at 1. rewrite (cut_at_dot_digits ip "" Hip).
      cbn. now rewrite app_empty_r.
    - exists (Some fp). split; [ exact Hfp | ].
      rewrite (cut_at_dot_digits ip _ Hip). cbn. now rewrite app_empty_r. }
  destruct Hcut as (fp & Hfp & ->).
  assert (Hall : PyStr.all PyStr.isdigit (ip +:+ default EmptyString fp) = true)
    by now rewrite all_app, Hip, Hfp.
  destruct (digits_value_all _ 0 Hall) as (n & Hn).
  destruct ip as [ | c ip ]; [ congruence | ].
  rewrite Hn. eauto.
Qed.

Lemma score_patterns_capture text m :
  first_match score_patterns (PyStr.lower text) = Some m ->
  exists g, Re.group1 m = Some g /\ is_number_text g.
Proof.
  unfold score_patterns. cbn [first_match].
  destruct (Re.search _ (PyStr.lower text)) as [ m1 | ] eqn:E1.
  { intros E; injection E as E; subst m.
    eapply (score_pattern_capture _
              (Re.word Re.lit "score" ++ [Re.Atom Re.colon_or_space Re.Many1]) []);
      [ | | | exact E1 ].
    - rewrite app_nil_r. reflexivity.
    - repeat constructor.
    - constructor. }
  destruct (Re.search (Re.number_group ++ Re.word Re.lit "/10")
              (PyStr.lower text)) as [ m2 | ] eqn:E2.
  { intros E; injection E as E; subst m.
    eapply (score_pattern_capture _ [] (Re.word Re.lit "/10"));
      [ | | | exact E2 ].
    - reflexivity.
    - constructor.
    - repeat constructor. }
  destruct (Re.search (Re.word Re.lit "rating" ++ _) (PyStr.lower text))
    as [ m3 | ] eqn:E3; [ | discriminate ].
  intros E; injection E as E; subst m.
  eapply (score_pattern_capture _
            (Re.word Re.lit "rating" ++ [Re.Atom Re.colon_or_space Re.Many1]) []);
    [ | | | exact E3 ].
  - rewrite app_nil_r. reflexivity.
  - repeat constructor.
  - constructor.
Qed.

(** X1: the [except] clause around [float] is never taken: whenever a score
    pattern matches, the number captured by the first pattern that
    matches parses, and it alone decides the score. *)
Theorem first_matching_pattern_decides_score text m :
  first_match score_patterns (PyStr.lower text) = Some m ->
  exists g v r,
    Re.group1 m = Some g
    /\ PyFloat.of_string g = Some v
    /\ parse_screening_text text = Some r
    /\ sr_score r
       = if PyFloat.gt v PyFloat.ten then PyFloat.div v PyFloat.ten else v.
Proof.
  intros Hm.
  destruct (score_patterns_capture text m Hm) as (g & Hg & Hnum).
  destruct (of_string_number g Hnum) as (v & Hv).
  destruct (parse_screening_text_total text) as (r & Hr & Hscore & _).
  exists g, v, r. repeat split; try assumption.
  rewrite Hscore. now apply (scan_score_first_match _ _ _ m g v).
Qed.

(** ** Stripping *)

Lemma lstrip_all p s : PyStr.all p s = true -> PyStr.all p (PyStr.lstrip s) = true.
Proof.
  induction s as [ | c s IH ]; [ reflexivity | ].
  intros Hall. cbn [PyStr.lstrip]. destruct (PyStr.isspace c); [ | exact Hall ].
  cbn [PyStr.all] in Hall. apply andb_true_iff in Hall. now apply IH.
Qed.

Lemma rstrip_all p s : PyStr.all p s = true -> PyStr.all p (PyStr.rstrip s) = true.
Proof.
  induction s as [ | c s IH ]; [ reflexivity | ].
  cbn [PyStr.all PyStr.rstrip]. intros [Hc Hs]%andb_true_iff.
  specialize (IH Hs). destruct (PyStr.rstrip s) as [ | d t ].
  - destruct (PyStr.isspace c); [ reflexivity | ]. cbn [PyStr.all]. now rewrite Hc.
  - cbn [PyStr.all] in *. now rewrite Hc, IH.
Qed.

Lemma lstrip_first s c :
  first_char (PyStr.lstrip s) = Some c -> PyStr.isspace c = false.
Proof.
  induction s as [ | d s IH ]; [ discriminate | ]. cbn [PyStr.lstrip].
  destruct (PyStr.isspace d) eqn:Hd; [ exact IH | ].
  cbn [first_char]. congruence.
Qed.

Lemma rstrip_first s c :
  (forall d, first_char s = Some d -> PyStr.isspace d = false) ->
  first_char (PyStr.rstrip s) = Some c -> PyStr.isspace c = false.
Proof.
  destruct s as [ | d s ]; [ discriminate | ]. intros Hd. cbn [PyStr.rstrip].
  specialize (Hd d eq_refl).
  destruct (PyStr.rstrip s); [ rewrite Hd | ]; cbn [first_char]; congruence.
Qed.

Lemma rstrip_last s c :
  last_char (PyStr.rstrip s) = Some c -> PyStr.isspace c = false.
Proof.
  induction s as [ | d s IH ]; [ discriminate | ]. cbn [PyStr.rstrip].
  destruct (PyStr.rstrip s) as [ | e t ].
  - destruct (PyStr.isspace d) eqn:Hd; [ discriminate | ].
    cbn [last_char]. congruence.
  - exact IH.
Qed.

Lemma strip_trimmed s : trimmed (PyStr.strip s).
Proof.
  split; intros c Hc.
  - apply (rstrip_first (PyStr.lstrip s)); [ apply lstrip_first | exact Hc ].
  - now apply (rstrip_last (PyStr.lstrip s)).
Qed.

Lemma strip_all p s : PyStr.all p s = true -> PyStr.all p (PyStr.strip s) = true.
Proof. intros Hs. now apply rstrip_all, lstrip_all. Qed.

(** ** The subject of the fallback email *)

Lemma subject_capture text m :
  Re.search subject_pattern text = Some m ->
  exists g, Re.group1 m = Some g /\ one_line g.
Proof.
  intros (before & s' & [rest g'] & -> & Hrun & ->)%search_inv.
  change subject_pattern
    with ((Re.word Re.lit_nocase "subject"
             ++ [Re.Atom Re.colon_or_space Re.Many1])
          ++ [Re.GroupOpen; Re.Atom Re.dot_any Re.Lazy0; Re.GroupClose;
              Re.Atom Re.line_end Re.Once]) in Hrun.
  apply run_prefix in Hrun; [ | repeat constructor ].
  destruct Hrun as (chars & s1 & -> & Hrun).
  cbn [Re.run Re.m_open Re.m_close] in Hrun.
  apply (lazy_inv _ _ Re.line_end) in Hrun.
  - destruct Hrun as (g & s2 & -> & Hall & Hk).
    apply one_inv in Hk. destruct Hk as (c & s3 & -> & _ & [= <- <-]).
    exists g. unfold Re.found_at. cbn [snd Re.group1 Re.m_open Re.m_close].
    rewrite between_app. split; [ reflexivity | ].
    unfold one_line. eapply all_impl; [ | exact Hall ].
    intros x [_ Hx]%andb_true_iff. exact Hx.
  - intros c s0 Hc. cbn [Re.one]. rewrite Hc. eauto.
Qed.

(** X6: the subject of a fallback email is one line without blanks at its
    ends, whatever the text of the writer. *)
Theorem fallback_subject_is_one_trimmed_line c sc text :
  let subject := ec_subject (fallback_email c sc text) in
  one_line subject /\ trimmed subject.
Proof.
  unfold fallback_email. cbn [ec_subject].
  destruct (Re.search subject_pattern text) as [ m | ] eqn:Hm.
  - destruct (subject_capture text m Hm) as (g & -> & Hg). cbn [default].
    split; [ now apply strip_all | apply strip_trimmed ].
  - split; [ reflexivity | ]. split; intros x [= <-]; reflexivity.
Qed.

(** ** What a pattern without group reads *)

Lemma run_reads post g s rest g' :
  markers_free post ->
  Re.run post g s = Some (rest, g') ->
  exists chars, s = chars +:+ rest /\ PyStr.all (accepts post) chars = true.
Proof.
  intros Hfree. revert s. induction Hfree as [ | i post Hi _ IH ]; intros s.
  - cbn [Re.run]. intros [= <- <-]. now exists EmptyString.
  - destruct i as [ p q | | ]; try contradiction.
    assert (Hweak : forall t, PyStr.all (accepts post) t = true ->
                      PyStr.all (accepts (Re.Atom p q :: post)) t = true).
    { intros t. apply all_impl. intros c Hc. cbn [accepts existsb].
      fold (accepts post c). rewrite Hc. apply orb_true_r. }
    assert (Hp : forall t, PyStr.all p t = true ->
                   PyStr.all (accepts (Re.Atom p q :: post)) t = true).
    { intros t. apply all_impl. intros c Hc. cbn [accepts existsb].
      now rewrite Hc. }
    assert (Hone : forall s, Re.one p (Re.run post g) s = Some (rest, g') ->
                     exists chars, s = chars +:+ rest
                       /\ PyStr.all (accepts (Re.Atom p q :: post)) chars = true).
    { intros s0 (c & s1 & -> & Hc & Hk)%one_inv.
      destruct (IH _ Hk) as (chars & -> & Hall).
      exists (String c chars). split; [ reflexivity | ].
      change (String c chars) with (String c EmptyString +:+ chars).
      rewrite all_app, (Hweak _ Hall), (Hp (String c EmptyString)); [ reflexivity | ].
      cbn [PyStr.all]. now rewrite Hc. }
    assert (Hmany : forall s, Re.greedy p (Re.run post g) s = Some (rest, g') ->
                     exists chars, s = chars +:+ rest
                       /\ PyStr.all (accepts (Re.Atom p q :: post)) chars = true).
    { intros s0 (chars & s1 & -> & Hchars & Hk)%greedy_inv.
      destruct (IH _ Hk) as (more & -> & Hall).
      exists (chars +:+ more). split; [ now rewrite append_assoc | ].
      now rewrite all_app, (Hp _ Hchars), (Hweak _ Hall). }
    destruct q; cbn [Re.run].
    + apply Hone.
    + destruct (Re.one p (Re.run post g) s) eqn:E.
      * intros [= ->]. now apply Hone.
      * intros Hr. destruct (IH _ Hr) as (chars & -> & Hall). eauto.
    + apply Hmany.
    + intros (c & s0 & -> & Hc & (chars & -> & Hall)%Hmany)%one_inv.
      exists (String c chars). split; [ reflexivity | ].
      change (String c chars) with (String c EmptyString +:+ chars).
      rewrite all_app, Hall, (Hp (String c EmptyString)); [ reflexivity | ].
      cbn [PyStr.all]. now rewrite Hc.
    + intros Hl.
      destruct (lazy_inv p (Re.run post g) (fun _ => false) s (rest, g')
                  ltac:(discriminate) Hl) as (chars & s1 & -> & Hchars & Hk).
      destruct (IH _ Hk) as (more & -> & Hall).
      exists (chars +:+ more). split; [ now rewrite append_assoc | ].
      rewrite all_app, (Hweak _ Hall), (Hp chars); [ reflexivity | ].
      eapply all_impl; [ | exact Hchars ].
      intros c [Hc _]%andb_true_iff. exact Hc.
Qed.

Lemma email_chars_not_blank c :
  accepts email_pattern c = true -> negb (PyStr.isspace c) = true.
Proof.
  destruct c as [[] [] [] [] [] [] [] []]; vm_compute; intros E;
    first [ reflexivity | discriminate E ].
Qed.

(** X3: an address found by the email pattern is a piece of the response
    text, without any blank, and becomes the email of the result. *)
Theorem matched_email_is_part_of_the_text text m :
  Re.search email_pattern text = Some m ->
  exists r before after,
    parse_screening_text text = Some r
    /\ sr_email r = Re.group0 m
    /\ text = before +:+ sr_email r +:+ after
    /\ no_blank (sr_email r).
Proof.
  intros Hm.
  destruct (parse_screening_text_total text) as (r & Hr & _).
  assert (He : sr_email r = Re.group0 m).
  { unfold parse_screening_text in Hr. rewrite Hm in Hr.
    destruct (if PyStr.contains "name:" (PyStr.lower text) then _ else _);
      [ | discriminate ].
    cbn in Hr. injection Hr as <-. reflexivity. }
  apply search_inv in Hm. destruct Hm as (before & s' & [rest g'] & -> & Hrun & ->).
  apply run_reads in Hrun; [ | repeat constructor ].
  destruct Hrun as (chars & -> & Hall).
  exists r, before, rest. rewrite He. unfold Re.found_at. cbn [fst Re.group0].
  rewrite between_app. repeat split; try assumption.
  unfold no_blank. eapply all_impl; [ | exact Hall ]. apply email_chars_not_blank.
Qed.

(** X4: without a line that names the candidate and without an address in
    the text, the email of the result is the placeholder built from the
    default name. *)
Theorem anonymous_result_gets_placeholder_email text :
  Forall (fun line => PyStr.contains "name:" (PyStr.lower line) = false)
         (PyStr.split PyStr.newline text) ->
  Re.search email_pattern text = None ->
  exists r, parse_screening_text text = Some r
    /\ sr_name r = "Unknown Candidate"
    /\ sr_email r = "unknown.candidate@example.com".
Proof.
  intros Hname Hmail. unfold parse_screening_text.
  rewrite (scan_name_default _ _ Hname), Hmail.
  destruct (PyStr.contains "name:" (PyStr.lower text)); cbn; eauto.
Qed.

(** ** The name *)

Lemma split_pieces sep s :
  Forall (fun piece => PyStr.all (fun c => negb (Ascii.eqb c sep)) piece = true)
         (PyStr.split sep s).
Proof.
  induction s as [ | c s IH ]; cbn [PyStr.split]; [ repeat constructor | ].
  destruct (Ascii.eqb c sep) eqn:Hc; [ constructor; [ reflexivity | exact IH ] | ].
  destruct (PyStr.split sep s) as [ | piece rest ]; constructor.
  - cbn [PyStr.all]. now rewrite Hc.
  - constructor.
  - inversion IH; subst. cbn [PyStr.all]. rewrite Hc. assumption.
  - now inversion IH.
Qed.

Lemma after_first_all p sep s t :
  PyStr.after_first sep s = Some t ->
  PyStr.all p s = true -> PyStr.all p t = true.
Proof.
  induction s as [ | c s IH ]; [ discriminate | ].
  cbn [PyStr.after_first PyStr.all]. intros Ht [Hc Hs]%andb_true_iff.
  destruct (Ascii.eqb c sep); [ now injection Ht as <- | auto ].
Qed.

Lemma scan_name_shape default lines n :
  scan_name default lines = Some n ->
  n = default
  \/ exists line after, line ∈ lines
       /\ PyStr.after_first ":" line = Some after /\ n = PyStr.strip after.
Proof.
  induction lines as [ | line rest IH ]; cbn [scan_name].
  - intros [= <-]. now left.
  - destruct (PyStr.contains "name:" (PyStr.lower line)).
    + destruct (PyStr.after_first ":" line) as [ after | ] eqn:Ha; [ | discriminate ].
      intros [= <-]. right. exists line, after.
      split; [ apply list_elem_of_here | auto ].
    + intros [ -> | (l & a & Hl & Ha & ->) ]%IH; [ now left | ].
      right. exists l, a. split; [ now apply list_elem_of_further | auto ].
Qed.

(** X2: the name of a result of the fallback parser is one line without
    blanks at its ends. *)
Theorem fallback_name_is_one_trimmed_line text r :
  parse_screening_text text = Some r ->
  no_newline (sr_name r) /\ trimmed (sr_name r).
Proof.
  intros Hr.
  destruct (parse_screening_text_total text) as (r' & Hr' & _ & _ & Hn).
  rewrite Hr in Hr'. injection Hr' as <-.
  assert (Hshape : sr_name r = "Unknown Candidate"
                   \/ exists line after, line ∈ PyStr.split PyStr.newline text
                        /\ PyStr.after_first ":" line = Some after
                        /\ sr_name r = PyStr.strip after).
  { destruct (PyStr.contains "name:" (PyStr.lower text)).
    - now apply scan_name_shape.
    - injection Hn as <-. now left. }
  destruct Hshape as [ -> | (line & after & Hline & Hafter & ->) ].
  - split; [ reflexivity | ]. split; intros x [= <-]; reflexivity.
  - split; [ | apply strip_trimmed ].
    apply strip_all. eapply after_first_all; [ exact Hafter | ].
    pose proof (split_pieces PyStr.newline text) as Hpieces.
    rewrite Forall_forall in Hpieces. now apply Hpieces.
Qed.

(** ** The feedback *)

Lemma take_prefix n s : exists rest, s = PyStr.take n s +:+ rest.
Proof.
  revert s. induction n as [ | n IH ]; intros s; [ now exists s | ].
  destruct s as [ | c s ]; [ now exists EmptyString | ].
  destruct (IH s) as (rest & E). exists rest.
  cbn [PyStr.take]. change (String c s = String c (PyStr.take n s +:+ rest)).
  now rewrite <- E.
Qed.

Lemma take_len n s : (PyStr.len (PyStr.take n s) <= n)%nat.
Proof.
  revert s. induction n as [ | n IH ]; intros s; [ cbn; lia | ].
  destruct s as [ | c s ]; cbn [PyStr.take PyStr.len]; [ lia | ].
  specialize (IH s). lia.
Qed.

Lemma take_all n s : (PyStr.len s <= n)%nat -> PyStr.take n s = s.
Proof.
  revert s. induction n as [ | n IH ]; intros s Hs.
  - destruct s; [ reflexivity | cbn in Hs; lia ].
  - destruct s as [ | c s ]; [ reflexivity | ].
    cbn [PyStr.take PyStr.len] in *. rewrite IH; [ reflexivity | lia ].
Qed.

(** X5: the fallback parser never raises, and the feedback of its result
    is the response text cut after 1000 characters: the whole text when
    it is not longer. *)
Theorem fallback_feedback_is_bounded_prefix text :
  exists r rest,
    parse_screening_text text = Some r
    /\ text = sr_feedback r +:+ rest
    /\ (PyStr.len (sr_feedback r) <= 1000)%nat
    /\ ((PyStr.len text <= 1000)%nat -> sr_feedback r = text).
Proof.
  destruct (parse_screening_text_total text) as (r & Hr & _ & Hf & _).
  destruct (take_prefix 1000 text) as (rest & E).
  exists r, rest. rewrite Hf. repeat split; try assumption.
  - apply take_len.
  - apply take_all.
Qed.

Lemma app_is_empty (a b : string) : a +:+ b = "" -> a = "" /\ b = "".
Proof. destruct a; [ auto | discriminate ]. Qed.

Lemma join_is_empty (texts : list string) :
  PyStr.join nl texts = "" <-> texts = [] \/ texts = [""].
Proof.
  split.
  - destruct texts as [ | t [ | u rest ] ]; cbn [PyStr.join].
    + auto.
    + intros ->. auto.
    + intros [_ [E _]%app_is_empty]%app_is_empty. discriminate E.
  - intros [ -> | -> ]; reflexivity.
Qed.

Section More.
Context {W : Type} `{Capabilities W}.

(** X7: the extracted text is empty exactly when the reader fails, or the
    document has no page, or it has a single page without text; a
    document of several pages without text gives line feeds, not the
    empty text. *)
Theorem extraction_is_empty_exactly path (s : state W) :
  fst (extract_text_from_pdf path s) = ""
  <-> match fst (read_pdf path (world s)) with
      | None => True
      | Some pages => pages = [] \/ pages = [None] \/ pages = [Some ""]
      end.
Proof.
  unfold extract_text_from_pdf, bind, perform, ret.
  destruct (read_pdf path (world s)) as [[ pages | ] w]; cbn [fst]; [ | tauto ].
  rewrite join_is_empty. split.
  - intros [ E | E ].
    + destruct pages; [ auto | discriminate ].
    + destruct pages as [ | [ t | ] [ | ] ]; try discriminate; cbn in E.
      * injection E as ->. auto.
      * auto.
  - intros [ -> | [ -> | -> ] ]; cbn; auto.
Qed.

Lemma ask_screening_calls text jd (s : state W) :
  calls (snd (ask_screening text jd s)) = calls s ++ [CallScreen text jd].
Proof.
  unfold ask_screening, bind, perform, ret.
  destruct (screening_arun _ (world s)) as [[ | [ c | ] ] w]; try reflexivity.
  destruct (negb (truthy c)); [ reflexivity | ]. destruct c; reflexivity.
Qed.

(** X8: a resume that is in the cache is not extracted again: the call
    asks the screening agent about the cached text, makes no other call
    and leaves the cache as it is. *)
Theorem cached_resume_is_not_extracted path jd cache text (s : state W) :
  cache !! path = Some text ->
  let out := screen_candidate path jd cache s in
  fst (fst out) = fst (ask_screening text jd s)
  /\ snd (fst out) = cache
  /\ calls (snd out) = calls s ++ [CallScreen text jd].
Proof.
  intros Hc. unfold screen_candidate. rewrite Hc. cbn [default from_option id]. unfold bind, ret.
  pose proof (ask_screening_calls text jd s) as Hcalls.
  destruct (ask_screening text jd s) as [r s1]. cbn [fst snd] in *.
  split; [ reflexivity | ]. split; [ reflexivity | exact Hcalls ].
Qed.

(** A resume that is not cached and whose extraction gives a text: the
    text is stored, then the agent is asked. *)
Lemma screen_candidate_fresh path jd cache (s : state W) :
  cache !! path = None ->
  fst (extract_text_from_pdf path s) <> "" ->
  let text := fst (extract_text_from_pdf path s) in
  let out := screen_candidate path jd cache s in
  snd (fst out) = <[ path := text ]> cache
  /\ calls (snd out) = calls s ++ [CallExtract path; CallScreen text jd].
Proof.
  intros Hc Htext. unfold screen_candidate. rewrite Hc. unfold bind, ret.
  pose proof (extract_calls path s) as Hcalls.
  destruct (extract_text_from_pdf path s) as [text s1]. cbn [fst snd] in *.
  destruct (String.eqb text "") eqn:E; [ apply String.eqb_eq in E; congruence | ].
  rewrite lookup_insert_eq. cbn [default from_option id].
  pose proof (ask_screening_calls text jd s1) as Hcalls'.
  destruct (ask_screening text jd s1) as [r s2]. cbn [fst snd] in *.
  split; [ reflexivity | ]. rewrite Hcalls', Hcalls, <- app_assoc. reflexivity.
Qed.

(** X9: a resume whose extraction gives a text is stored in the cache
    before the agent is asked: whatever the agent does, the cache comes
    back with the text under the path, after one extraction and one
    screening call; and a later call for the path with that cache asks
    the agent about the stored text without extracting again. *)
Theorem extracted_resume_is_cached path jd cache (s : state W) :
  cache !! path = None ->
  fst (extract_text_from_pdf path s) <> "" ->
  let text := fst (extract_text_from_pdf path s) in
  let out := screen_candidate path jd cache s in
  snd (fst out) = <[ path := text ]> cache
  /\ calls (snd out) = calls s ++ [CallExtract path; CallScreen text jd]
  /\ forall jd' (s2 : state W),
       calls (snd (screen_candidate path jd' (snd (fst out)) s2))
       = calls s2 ++ [CallScreen text jd'].
Proof.
  intros Hc Htext text out.
  destruct (screen_candidate_fresh path jd cache s Hc Htext) as [Hcache Hcalls].
  fold text in Hcache, Hcalls. fold out in Hcache, Hcalls.
  split; [ exact Hcache | ]. split; [ exact Hcalls | ].
  intros jd' s2. rewrite Hcache. unfold screen_candidate.
  rewrite lookup_insert_eq. cbn [default from_option id]. unfold bind, ret.
  pose proof (ask_screening_calls text jd' s2) as Hask.
  destruct (ask_screening text jd' s2) as [r s3]. exact Hask.
Qed.

Lemma adds_extract_other path q :
  q <> path ->
  adds (fun k => k <> CallExtract path) (extract_text_from_pdf q : M W string).
Proof.
  intros Hq. unfold extract_text_from_pdf. apply adds_bind.
  - apply adds_perform. congruence.
  - intros [ texts | ]; apply adds_ret.
Qed.

Lemma adds_ask_screening_only P text jd :
  P (CallScreen text jd) ->
  adds P (ask_screening text jd : M W (option ScreeningResult)).
Proof.
  intros HP s. exists [CallScreen text jd].
  split; [ apply ask_screening_calls | repeat constructor; exact HP ].
Qed.

(** Screening a path keeps what is cached, and extracts no path that is
    cached. *)
Lemma screen_candidate_keeps_cache path q jd cache (s : state W) :
  is_Some (cache !! path) ->
  is_Some (snd (fst (screen_candidate q jd cache s)) !! path)
  /\ exists new,
       calls (snd (screen_candidate q jd cache s)) = calls s ++ new
       /\ Forall (fun k => k <> CallExtract path) new.
Proof.
  intros Hpath. unfold screen_candidate.
  destruct (cache !! q) as [ text | ] eqn:Hq.
  - cbn [default from_option id]. unfold bind, ret.
    pose proof (ask_screening_calls text jd s) as Hcalls.
    destruct (ask_screening text jd s) as [r s1]. cbn [fst snd] in *.
    split; [ exact Hpath | ]. exists [CallScreen text jd].
    split; [ exact Hcalls | repeat constructor; discriminate ].
  - assert (Hne : q <> path) by (intros ->; destruct Hpath; congruence).
    unfold bind, ret.
    destruct (adds_extract_other path q Hne s) as (n1 & E1 & F1).
    destruct (extract_text_from_pdf q s) as [text s1]. cbn [fst snd] in *.
    destruct (String.eqb text ""); cbn [fst snd].
    + split; [ exact Hpath | eauto ].
    + rewrite lookup_insert_eq. cbn [default from_option id].
      pose proof (ask_screening_calls text jd s1) as Hcalls.
      destruct (ask_screening text jd s1) as [r s2]. cbn [fst snd] in *.
      split; [ now rewrite lookup_insert_ne | ].
      exists (n1 ++ [CallScreen text jd]).
      split; [ now rewrite Hcalls, E1, app_assoc | ].
      apply Forall_app. split; [ exact F1 | repeat constructor; discriminate ].
Qed.

Lemma screening_loop_keeps_cache path paths jd min acc (s : state W) :
  is_Some (p1_cache acc !! path) ->
  exists new,
    calls (snd (screening_loop paths jd min acc s)) = calls s ++ new
    /\ Forall (fun k => k <> CallExtract path) new.
Proof.
  revert acc s. induction paths as [ | q rest IH ]; intros acc s Hpath.
  - exists []. cbn. now rewrite app_nil_r.
  - cbn [screening_loop]. unfold bind.
    destruct (screen_candidate_keeps_cache path q jd (p1_cache acc) s Hpath)
      as (Hkeep & n1 & E1 & F1).
    destruct (screen_candidate q jd (p1_cache acc) s) as [[o cache'] s1].
    cbn [fst snd] in *.
    destruct o as [ c | ];
      (match goal with
       | |- context [ screening_loop rest jd min ?a s1 ] =>
           destruct (IH a s1 Hkeep) as (n2 & E2 & F2)
       end;
       exists (n1 ++ n2); split; [ now rewrite E2, E1, app_assoc | ];
       apply Forall_app; auto).
Qed.

End More.

Section Accounting.
Context {W : Type} `{Capabilities W}.

Lemma fallback_schedule_calls c (s : state W) :
  calls (snd (fallback_schedule c s)) = calls s.
Proof.
  unfold fallback_schedule, bind, consult, ret.
  destruct (clock (world s)) as [now w1]. cbn [fst snd].
  set (s1 := {| world := w1; calls := calls s |}).
  pose proof (randint_world 1 7 s1) as E1.
  destruct (randint 1 7 s1) as [days s2]. cbn [snd] in E1.
  destruct (PyTime.add_days now days); [ | exact E1 ].
  pose proof (randint_world 10 17 s2) as E2.
  destruct (randint 10 17 s2) as [hour s3]. cbn [snd] in E2.
  pose proof (randint_world 100000000 999999999 s3) as E3.
  destruct (randint 100000000 999999999 s3) as [id s4]. cbn [snd] in *.
  rewrite E3, E2, E1. reflexivity.
Qed.

Lemma schedule_interview_calls c (s : state W) :
  calls (snd (schedule_interview c s)) = calls s ++ [CallSchedule c].
Proof.
  unfold schedule_interview, bind, perform, ret.
  destruct (scheduler_arun _ (world s)) as [[ | [ k | ] ] w]; try reflexivity.
  destruct (negb (truthy k)); [ reflexivity | ].
  destruct k; try reflexivity. apply fallback_schedule_calls.
Qed.

Lemma send_interview_invitation_calls c sc (s : state W) :
  exists more,
    calls (snd (send_interview_invitation c sc s))
    = calls s ++ CallWrite c sc :: more
    /\ (more = [] \/ exists e, more = [CallSend c e]).
Proof.
  unfold send_interview_invitation, bind, perform, ret.
  destruct (email_writer_arun _ (world s)) as [[ | [ k | ] ] w];
    try solve [ exists (@nil call); cbn; auto ].
  destruct (negb (truthy k)); [ exists (@nil call); cbn; auto | ].
  destruct k as [ | text | e ]; try solve [ exists (@nil call); cbn; auto ].
  cbn [world calls].
  destruct (email_sender_arun _ w) as [[ | [ ? | ] ] w2];
    exists [CallSend c e]; cbn; rewrite <- app_assoc; eauto.
Qed.

Lemma interview_loop_schedules candidates rows ecs (s : state W) :
  exists new,
    calls (snd (interview_loop candidates rows ecs s)) = calls s ++ new
    /\ omap scheduled_candidate new = candidates
    /\ Forall (fun k => is_extract_call k = false /\ is_screen_call k = false) new.
Proof.
  revert rows ecs s. induction candidates as [ | c rest IH ]; intros rows ecs s.
  - exists []. cbn. rewrite app_nil_r. auto.
  - cbn [interview_loop]. unfold bind.
    pose proof (schedule_interview_calls c s) as E1.
    destruct (schedule_interview c s) as [[ sc | ] s1]; cbn [snd] in E1.
    + destruct (send_interview_invitation_calls c sc s1) as (more & E2 & Hmore).
      destruct (send_interview_invitation c sc s1) as [ec s2]. cbn [snd] in E2.
      destruct (IH (fst (update_results rows c sc ec ecs))
                   (snd (update_results rows c sc ec ecs)) s2) as (n3 & E3 & O3 & F3).
      exists (CallSchedule c :: CallWrite c sc :: more ++ n3).
      split; [ rewrite E3, E2, E1, <- !app_assoc; reflexivity | ].
      split.
      * cbn [omap list_omap scheduled_candidate]. f_equal.
        rewrite omap_app, O3.
        destruct Hmore as [ -> | (e & ->) ]; reflexivity.
      * repeat (constructor; [ split; reflexivity | ]).
        apply Forall_app. split; [ | exact F3 ].
        destruct Hmore as [ -> | (e & ->) ]; repeat constructor.
    + destruct (IH rows ecs s1) as (n3 & E3 & O3 & F3).
      exists (CallSchedule c :: n3).
      split; [ rewrite E3, E1, <- app_assoc; reflexivity | ].
      split; [ cbn; now rewrite O3 | ].
      constructor; [ split; reflexivity | exact F3 ].
Qed.

Lemma omap_none {A B} (f : A -> option B) (l : list A) :
  Forall (fun x => f x = None) l -> omap f l = [].
Proof.
  induction 1 as [ | x l Hx _ IH ]; [ reflexivity | ].
  cbn. now rewrite Hx, IH.
Qed.

(** X12: in a run the scheduler is called once for each selected
    candidate, in the order of selection, and for nobody else. *)
Theorem scheduler_is_called_once_per_selected_candidate
    paths jd min (s : state W) :
  let r := fst (process_candidates paths jd min s) in
  exists new,
    calls (snd (process_candidates paths jd min s)) = calls s ++ new
    /\ omap scheduled_candidate new = selected_candidates r.
Proof.
  destruct (decide (paths = [])) as [ Hp | Hp ].
  { destruct (process_candidates_invalid paths jd min s (or_introl Hp))
      as (m & _ & ->). exists []. cbn. now rewrite app_nil_r. }
  destruct (decide (jd = "")) as [ Hjd | Hjd ].
  { destruct (process_candidates_invalid paths jd min s (or_intror Hjd))
      as (m & _ & ->). exists []. cbn. now rewrite app_nil_r. }
  destruct (process_candidates_run paths jd min s Hp Hjd)
    as (acc & s1 & out & s2 & E1 & E2 & ->). cbn [fst snd selected_candidates].
  destruct (adds_screening_loop paths jd min screened_init s) as (n1 & C1 & F1).
  destruct (interview_loop_schedules (p1_selected acc) (p1_results acc) ∅ s1)
    as (n2 & C2 & O2 & _).
  rewrite E1 in C1. rewrite E2 in C2. cbn [snd] in C1, C2.
  exists (n1 ++ n2). split; [ now rewrite C2, C1, app_assoc | ].
  rewrite omap_app, O2, omap_none; [ reflexivity | ].
  eapply Forall_impl; [ exact F1 | ].
  intros k Hk. destruct k; cbn in *; try contradiction; reflexivity.
Qed.

(** X10: a readable resume at the head of the list is extracted once in
    the whole run, however often its path comes again. *)
Theorem readable_resume_is_extracted_once path rest jd min (s : state W) :
  jd <> "" ->
  fst (extract_text_from_pdf path s) <> "" ->
  let text := fst (extract_text_from_pdf path s) in
  exists more,
    calls (snd (process_candidates (path :: rest) jd min s))
    = calls s ++ CallExtract path :: CallScreen text jd :: more
    /\ Forall (fun k => k <> CallExtract path) more.
Proof.
  intros Hjd Htext text.
  destruct (process_candidates_run (path :: rest) jd min s ltac:(discriminate) Hjd)
    as (acc & s1 & out & s2 & E1 & E2 & ->). cbn [snd].
  destruct (interview_loop_schedules (p1_selected acc) (p1_results acc) ∅ s1)
    as (n2 & C2 & _ & F2).
  rewrite E2 in C2. cbn [snd] in C2.
  cbn [screening_loop] in E1. unfold bind in E1.
  destruct (screen_candidate_fresh path jd ∅ s (lookup_empty _) Htext)
    as [Hcache Hcalls].
  fold text in Hcache, Hcalls.
  cbn [p1_cache screened_init] in E1.
  destruct (screen_candidate path jd ∅ s) as [[o cache'] s0].
  cbn [fst snd] in *.
  assert (Hloop : exists acc0, screening_loop rest jd min acc0 s0 = (acc, s1)
                    /\ is_Some (p1_cache acc0 !! path)).
  { destruct o; eexists; (split; [ exact E1 | ]); cbn [p1_cache];
      rewrite Hcache, lookup_insert_eq; eauto. }
  destruct Hloop as (acc0 & E0 & Hin).
  destruct (screening_loop_keeps_cache path rest jd min acc0 s0 Hin)
    as (n1 & C1 & F1).
  rewrite E0 in C1. cbn [snd] in C1.
  exists (n1 ++ n2).
  split; [ rewrite C2, C1, Hcalls, <- !app_assoc; reflexivity | ].
  apply Forall_app. split; [ exact F1 | ].
  eapply Forall_impl; [ exact F2 | ].
  intros k [Hk _] ->. discriminate Hk.
Qed.
End Accounting.

(** ** Rows, statuses and stored emails *)

Lemma row_consistent_mono (ecs ecs' : gmap string EmailContent) row :
  (forall e, is_Some (ecs !! e) -> is_Some (ecs' !! e)) ->
  row_consistent ecs row -> row_consistent ecs' row.
Proof.
  unfold row_consistent. intros Hmono.
  destruct (status row); intuition auto.
Qed.

Lemma update_results_keeps_keys rows c sc ec (ecs : gmap string EmailContent) e :
  is_Some (ecs !! e) -> is_Some (snd (update_results rows c sc ec ecs) !! e).
Proof.
  intros He. induction rows as [ | r rest IH ]; cbn [update_results snd]; [ exact He | ].
  destruct (String.eqb (email r) (sr_email c)); cbn [snd]; [ | exact IH ].
  destruct ec as [ x | ]; [ | exact He ].
  destruct (decide (sr_email c = e)) as [ -> | Hne ].
  - rewrite lookup_insert_eq. eauto.
  - now rewrite lookup_insert_ne.
Qed.

Lemma update_results_consistent rows c sc ec (ecs : gmap string EmailContent) :
  Forall (row_consistent ecs) rows ->
  Forall (row_consistent (snd (update_results rows c sc ec ecs)))
         (fst (update_results rows c sc ec ecs)).
Proof.
  induction 1 as [ | r rest Hr Hrest IH ]; cbn [update_results]; [ constructor | ].
  destruct (String.eqb (email r) (sr_email c)) eqn:E; cbn [fst snd].
  - apply String.eqb_eq in E. constructor.
    + unfold row_consistent, updated_row. cbn.
      destruct ec as [ x | ]; [ | eauto ].
      rewrite E, lookup_insert_eq. eauto.
    + eapply Forall_impl; [ exact Hrest | ].
      intros row. apply row_consistent_mono. intros e He.
      destruct ec as [ x | ]; [ | exact He ].
      destruct (decide (sr_email c = e)) as [ -> | Hne ].
      * rewrite lookup_insert_eq. eauto.
      * now rewrite lookup_insert_ne.
  - constructor; [ | exact IH ].
    eapply row_consistent_mono; [ | exact Hr ].
    intros e. apply update_results_keeps_keys.
Qed.

Section Consistency.
Context {W : Type} `{Capabilities W}.

Lemma interview_loop_consistent candidates rows ecs (s : state W) :
  Forall (row_consistent ecs) rows ->
  let out := fst (interview_loop candidates rows ecs s) in
  Forall (row_consistent (snd out)) (fst out).
Proof.
  revert rows ecs s. induction candidates as [ | c rest IH ]; intros rows ecs s Hrows.
  - exact Hrows.
  - cbn [interview_loop]. unfold bind.
    destruct (schedule_interview c s) as [[ sc | ] s1]; [ | now apply IH ].
    destruct (send_interview_invitation c sc s1) as [ec s2].
    apply IH. now apply update_results_consistent.
Qed.

(** X16: in every result the status of a row goes with its fields: a
    rejected or selected row has no interview time, meeting URL or email
    subject; a scheduled row has a time and a URL; a row with its email
    sent has all three and its email is a key of [email_contents]. *)
Theorem rows_are_consistent paths jd min (s : state W) :
  let r := fst (process_candidates paths jd min s) in
  Forall (row_consistent (email_contents r)) (results r).
Proof.
  destruct (decide (paths = [])) as [ Hp | Hp ].
  { destruct (process_candidates_invalid paths jd min s (or_introl Hp))
      as (m & _ & ->). constructor. }
  destruct (decide (jd = "")) as [ Hjd | Hjd ].
  { destruct (process_candidates_invalid paths jd min s (or_intror Hjd))
      as (m & _ & ->). constructor. }
  destruct (process_candidates_run paths jd min s Hp Hjd)
    as (acc & s1 & out & s2 & E1 & E2 & ->). cbn [fst results email_contents].
  pose proof (screening_loop_ok paths jd min screened_init s) as Hok.
  rewrite E1 in Hok. destruct Hok as [Hres _]; [ split; reflexivity | ].
  pose proof (interview_loop_consistent (p1_selected acc) (p1_results acc) ∅ s1)
    as Hloop.
  rewrite E2 in Hloop. apply Hloop. cbn [fst] in Hres. rewrite Hres.
  apply Forall_forall. intros row Hrow.
  apply list_elem_of_In, List.in_map_iff in Hrow. destruct Hrow as (c & <- & _).
  unfold row_consistent, new_row. cbn.
  destruct (PyFloat.lt (sr_score c) min); auto.
Qed.

(** X17: when every screened candidate is below the threshold, nobody is
    selected, every row is rejected and as phase 1 made it, no email is
    stored, and the run makes no call beyond the screening calls. *)
Theorem nobody_selected_nothing_scheduled paths jd min (s : state W) :
  let r := fst (process_candidates paths jd min s) in
  error r = None ->
  Forall (fun c => PyFloat.lt (sr_score c) min = true) (all_candidates r) ->
  selected_candidates r = []
  /\ results r = map (fun c => new_row c min) (all_candidates r)
  /\ Forall (fun row => status row = rejected) (results r)
  /\ email_contents r = ∅
  /\ exists new,
       calls (snd (process_candidates paths jd min s)) = calls s ++ new
       /\ Forall is_screening_call new.
Proof.
  intros r Herr Hlow. destruct (error_free_run paths jd min s Herr) as [Hp Hjd].
  subst r.
  destruct (process_candidates_run paths jd min s Hp Hjd)
    as (acc & s1 & out & s2 & E1 & E2 & E). rewrite E in *.
  cbn [fst snd all_candidates selected_candidates results email_contents] in *.
  pose proof (screening_loop_ok paths jd min screened_init s) as Hok.
  rewrite E1 in Hok. destruct Hok as [Hres Hsel]; [ split; reflexivity | ].
  cbn [fst] in Hres, Hsel.
  assert (Hnone : p1_selected acc = []).
  { rewrite Hsel. clear -Hlow. induction Hlow as [ | c l Hc _ IH ]; [ reflexivity | ].
    cbn. now rewrite (lt_excludes_ge _ _ Hc). }
  rewrite Hnone in E2. cbn in E2. unfold ret in E2. injection E2 as <- <-.
  cbn [fst snd]. repeat split; try assumption.
  - rewrite Hres. apply Forall_forall. intros row Hrow.
    apply list_elem_of_In, List.in_map_iff in Hrow. destruct Hrow as (c & <- & Hc).
    cbn. rewrite Forall_forall in Hlow.
    now rewrite (Hlow c (proj2 (list_elem_of_In _ _) Hc)).
  - destruct (adds_screening_loop paths jd min screened_init s) as (new & C & F).
    rewrite E1 in C. eauto.
Qed.

(** X18: a run on one resume in which every stage succeeds ends with one
    candidate, selected, one row with status email_sent carrying the slot
    and the subject, and one stored email under the address of the
    candidate. *)
Theorem single_candidate_success path jd min (s s1 s2 s3 : state W)
    c cache sc e :
  jd <> "" ->
  screen_candidate path jd ∅ s = (Some c, cache, s1) ->
  PyFloat.ge (sr_score c) min = true ->
  schedule_interview c s1 = (Some sc, s2) ->
  send_interview_invitation c sc s2 = (Some e, s3) ->
  process_candidates [path] jd min s
  = ({| all_candidates := [c];
        selected_candidates := [c];
        results := [ {| name := sr_name c; email := sr_email c;
                        score := sr_score c; feedback := sr_feedback c;
                        status := email_sent;
                        interview_time := Some (sc_call_time sc);
                        meeting_url := Some (sc_url sc);
                        email_subject := Some (ec_subject e) |} ];
        email_contents := {[ sr_email c := e ]};
        error := None |}, s3).
Proof.
  intros Hjd Hscreen Hge Hsched Hsend. unfold process_candidates.
  destruct (String.eqb jd "") eqn:E; [ apply String.eqb_eq in E; congruence | ].
  cbn [screening_loop]. unfold bind, ret. cbn [p1_cache screened_init].
  rewrite Hscreen. cbn [fst snd p1_all p1_selected p1_results screened_init app].
  rewrite Hge. cbn [app interview_loop]. unfold bind, ret.
  rewrite Hsched, Hsend. cbn [update_results new_row email].
  rewrite String.eqb_refl. reflexivity.
Qed.
End Consistency.

Lemma count_app kind a b : count kind (a ++ b) = (count kind a + count kind b)%nat.
Proof. unfold count. now rewrite List.filter_app, length_app. Qed.

Section Schedule.
Context {W : Type} `{Capabilities W}.

(** X13: on a text answer the fallback gives a slot in the name and email
    of the candidate whenever the date read from the clock is at least a
    week before the last date of the calendar; on that last date the date
    arithmetic overflows and the step returns [None]. *)
Theorem text_answer_gives_slot_for_the_candidate c text (s : state W) w1 :
  scheduler_arun (schedule_prompt c) (world s)
  = (Returned (Some (Text text)), w1) ->
  text <> "" ->
  let now := fst (clock w1) in
  (0 <= PyTime.ordinal now <= PyTime.max_ordinal - 7 ->
   exists sc, fst (schedule_interview c s) = Some sc
     /\ sc_name sc = sr_name c /\ sc_email sc = sr_email c)
  /\ (PyTime.max_ordinal <= PyTime.ordinal now ->
      fst (schedule_interview c s) = None).
Proof.
  intros Hreply Htext now.
  assert (Hrun : schedule_interview c s
                 = fallback_schedule c
                     {| world := w1; calls := calls s ++ [CallSchedule c] |}).
  { unfold schedule_interview, bind, perform. rewrite Hreply. cbn [truthy].
    destruct (String.eqb text "") eqn:E; [ apply String.eqb_eq in E; congruence | ].
    reflexivity. }
  rewrite Hrun. unfold fallback_schedule, bind, consult, ret. cbn [world calls].
  subst now. destruct (clock w1) as [now w2]. cbn [fst].
  set (s1 := {| world := w2; calls := _ |}).
  pose proof (randint_range 1 7 s1 ltac:(lia)) as Hd.
  destruct (randint 1 7 s1) as [days s2]. cbn [fst] in Hd.
  unfold PyTime.add_days. split.
  - intros Hnow.
    replace ((1 <=? PyTime.ordinal now + days)
             && (PyTime.ordinal now + days <=? PyTime.max_ordinal)) with true
      by (symmetry; apply andb_true_iff; split; apply Z.leb_le; lia).
    destruct (randint 10 17 s2) as [hour s3].
    destruct (randint 100000000 999999999 s3) as [id s4].
    cbn [fst]. eauto.
  - intros Hnow.
    replace ((1 <=? PyTime.ordinal now + days)
             && (PyTime.ordinal now + days <=? PyTime.max_ordinal)) with false
      by (symmetry; apply andb_false_iff; right; apply Z.leb_gt; lia).
    reflexivity.
Qed.

(** X14: the simulated Zoom tool and the fallback of the scheduling step
    are the same algorithm: from the same state they read the clock and
    the random generator alike, fail alike, and the text of the tool
    reports the slot of the fallback. *)
Theorem zoom_tool_agrees_with_fallback c (s : state W) :
  match fallback_schedule c s,
        simulate_zoom_scheduling (sr_name c) (sr_email c) s with
  | (Some sc, s1), (Some text, s2) =>
      s1 = s2
      /\ text = "[OK] Zoom call scheduled successfully!" +:+ nl
                +:+ "Time: " +:+ sc_call_time sc +:+ nl
                +:+ "Meeting URL: " +:+ sc_url sc +:+ nl
                +:+ "Participant: " +:+ sc_name sc +:+ " ("
                +:+ sc_email sc +:+ ")"
  | (None, s1), (None, s2) => s1 = s2
  | _, _ => False
  end.
Proof.
  unfold fallback_schedule, simulate_zoom_scheduling, bind, consult, ret.
  destruct (clock (world s)) as [now w1].
  destruct (randint 1 7 _) as [days s2].
  destruct (PyTime.add_days now days) as [ base | ]; [ | reflexivity ].
  destruct (randint 10 17 s2) as [hour s3].
  destruct (randint 100000000 999999999 s3) as [id s4].
  split; [ reflexivity | ]. cbn [sc_call_time sc_url sc_name sc_email].
  rewrite !append_assoc. reflexivity.
Qed.

(** *** No retry in the screening phase *)

Lemma screen_candidate_counts path jd cache (s : state W) :
  exists new,
    calls (snd (screen_candidate path jd cache s)) = calls s ++ new
    /\ (count is_extract_call new <= 1)%nat
    /\ (count is_screen_call new <= 1)%nat
    /\ (is_Some (fst (fst (screen_candidate path jd cache s))) ->
        count is_screen_call new = 1%nat).
Proof.
  unfold screen_candidate. destruct (cache !! path) as [ text | ].
  - cbn [default from_option id]. unfold bind, ret.
    pose proof (ask_screening_calls text jd s) as E.
    destruct (ask_screening text jd s) as [r s1]. cbn [fst snd] in *.
    exists [CallScreen text jd]. cbn. auto.
  - unfold bind, ret. pose proof (extract_calls path s) as E1.
    destruct (extract_text_from_pdf path s) as [text s1]. cbn [fst snd] in *.
    destruct (String.eqb text ""); cbn [fst snd].
    + exists [CallExtract path]. cbn. repeat split; auto.
      intros [x Hx]. discriminate.
    + rewrite lookup_insert_eq. cbn [default from_option id].
      pose proof (ask_screening_calls text jd s1) as E2.
      destruct (ask_screening text jd s1) as [r s2]. cbn [fst snd] in *.
      exists [CallExtract path; CallScreen text jd].
      rewrite E2, E1, <- app_assoc. cbn. auto.
Qed.

Lemma screening_loop_counts paths jd min acc (s : state W) :
  exists new,
    calls (snd (screening_loop paths jd min acc s)) = calls s ++ new
    /\ Forall is_screening_call new
    /\ (count is_extract_call new <= length paths)%nat
    /\ (count is_screen_call new <= length paths)%nat
    /\ (length (p1_all (fst (screening_loop paths jd min acc s)))
        <= length (p1_all acc) + count is_screen_call new)%nat.
Proof.
  revert acc s. induction paths as [ | p rest IH ]; intros acc s.
  - exists []. cbn. rewrite app_nil_r. repeat split; auto; lia.
  - cbn [screening_loop]. unfold bind.
    destruct (screen_candidate_counts p jd (p1_cache acc) s)
      as (n1 & E1 & X1 & S1 & R1).
    destruct (adds_screen_candidate p jd (p1_cache acc) s) as (n1' & E1' & F1).
    assert (n1' = n1) as -> by (rewrite E1 in E1'; now apply app_inv_head in E1').
    destruct (screen_candidate p jd (p1_cache acc) s) as [[o cache'] s1].
    cbn [fst snd] in *.
    destruct o as [ c | ];
      match goal with
      | |- context [ screening_loop rest jd min ?a s1 ] =>
          destruct (IH a s1) as (n2 & E2 & F2 & X2 & S2 & L2)
      end;
      exists (n1 ++ n2); rewrite !count_app;
      (split; [ now rewrite E2, E1, app_assoc | ]);
      (split; [ now apply Forall_app | ]);
      cbn [p1_all length] in *; rewrite ?length_app in *; cbn [length] in *.
    + specialize (R1 ltac:(eauto)). lia.
    + lia.
Qed.

(** X11: a run never retries a screening: it makes at most one extraction
    call and one screening call per path, and every candidate of
    [all_candidates] comes from a screening call of its own. *)
Theorem screening_is_attempted_once_per_path paths jd min (s : state W) :
  let r := fst (process_candidates paths jd min s) in
  exists new,
    calls (snd (process_candidates paths jd min s)) = calls s ++ new
    /\ (count is_extract_call new <= length paths)%nat
    /\ (count is_screen_call new <= length paths)%nat
    /\ (length (all_candidates r) <= count is_screen_call new)%nat.
Proof.
  destruct (decide (paths = [])) as [ Hp | Hp ].
  { destruct (process_candidates_invalid paths jd min s (or_introl Hp))
      as (m & _ & ->). exists []. cbn. rewrite app_nil_r. repeat split; lia. }
  destruct (decide (jd = "")) as [ Hjd | Hjd ].
  { destruct (process_candidates_invalid paths jd min s (or_intror Hjd))
      as (m & _ & ->). exists []. cbn. rewrite app_nil_r. repeat split; lia. }
  destruct (process_candidates_run paths jd min s Hp Hjd)
    as (acc & s1 & out & s2 & E1 & E2 & ->). cbn [fst snd all_candidates].
  destruct (screening_loop_counts paths jd min screened_init s)
    as (n1 & C1 & _ & X1 & S1 & L1).
  destruct (interview_loop_schedules (p1_selected acc) (p1_results acc) ∅ s1)
    as (n2 & C2 & _ & F2).
  rewrite E1 in C1, L1. rewrite E2 in C2. cbn [fst snd] in *.
  assert (Hzero : count is_extract_call n2 = 0%nat /\ count is_screen_call n2 = 0%nat).
  { clear -F2. induction F2 as [ | k l [Hx Hs] _ [IHx IHs] ]; [ split; reflexivity | ].
    unfold count in *. cbn. rewrite Hx, Hs. auto. }
  destruct Hzero as [Zx Zs].
  exists (n1 ++ n2). rewrite !count_app, Zx, Zs.
  split; [ now rewrite C2, C1, app_assoc | ]. cbn [p1_all screened_init length] in L1.
  repeat split; lia.
Qed.
End Schedule.

(** ** The API keys of the front end *)

Section Session_facts.
Context {V : Type} (of_text : string -> V).

Lemma check_keys_loop_spec keys (session : gmap string V) environ missing :
  let out := check_keys_loop of_text keys session environ missing in
  (forall key value, session !! key = Some value -> fst out !! key = Some value)
  /\ (forall key, key ∈ keys -> session !! key = None ->
        fst out !! key = of_text <$> environ !! key)
  /\ (forall key, key ∉ keys -> fst out !! key = session !! key)
  /\ (forall key, key ∈ snd out <->
        key ∈ missing
        \/ (key ∈ keys /\ session !! key = None /\ environ !! key = None)).
Proof.
  revert session missing. induction keys as [ | k rest IH ]; intros session missing.
  - cbn. repeat split; try tauto.
    + intros key Hin. inversion Hin.
    + intros [ ? | (Hin & _) ]; [ assumption | inversion Hin ].
  - cbn [check_keys_loop]. destruct (session !! k) as [ v | ] eqn:Hk.
    + destruct (IH session missing) as (I1 & I2 & I3 & I4).
      split; [ exact I1 | ]. split; [ | split ].
      * intros key [ -> | Hin ]%elem_of_cons Hnone; [ congruence | auto ].
      * intros key Hnot. apply I3. intros Hin. apply Hnot. now right.
      * intros key. rewrite I4. split.
        -- intros [ ? | (Hin & ? & ?) ]; [ now left | ].
           right. split; [ now right | auto ].
        -- intros [ ? | ([ -> | Hin ]%elem_of_cons & Hs & He) ];
             [ now left | congruence | right; auto ].
    + destruct (environ !! k) as [ v | ] eqn:He.
      * destruct (IH (<[ k := of_text v ]> session) missing) as (I1 & I2 & I3 & I4).
        split; [ | split; [ | split ] ].
        -- intros key value Hs. apply I1.
           rewrite lookup_insert_ne; [ exact Hs | congruence ].
        -- intros key Hin Hnone. destruct (decide (key = k)) as [ -> | Hne ].
           ++ rewrite He. apply I1. apply lookup_insert_eq.
           ++ apply elem_of_cons in Hin. destruct Hin as [ -> | Hin ]; [ congruence | ].
              apply I2; [ exact Hin | ]. now rewrite lookup_insert_ne.
        -- intros key Hnot. rewrite I3.
           ++ apply lookup_insert_ne. intros ->. apply Hnot. now left.
           ++ intros Hin. apply Hnot. now right.
        -- intros key. rewrite I4. split.
           ++ intros [ ? | (Hin & Hs & Hx) ]; [ now left | ].
              right. split; [ now right | ]. split; [ | exact Hx ].
              destruct (decide (k = key)) as [ -> | Hne ];
                [ rewrite lookup_insert_eq in Hs; discriminate
                | now rewrite lookup_insert_ne in Hs ].
           ++ intros [ ? | ([ -> | Hin ]%elem_of_cons & Hs & Hx) ];
                [ now left | congruence | ].
              right. split; [ exact Hin | ]. split; [ | exact Hx ].
              destruct (decide (k = key)) as [ -> | Hne ];
                [ congruence | now rewrite lookup_insert_ne ].
      * destruct (IH session (missing ++ [k])) as (I1 & I2 & I3 & I4).
        split; [ exact I1 | ]. split; [ | split ].
        -- intros key [ -> | Hin ]%elem_of_cons Hnone.
           ++ rewrite He. destruct (decide (k ∈ rest)) as [ Hin | Hnot ].
              ** rewrite I2, He; auto.
              ** rewrite I3; auto.
           ++ auto.
        -- intros key Hnot. apply I3. intros Hin. apply Hnot. now right.
        -- intros key. rewrite I4, elem_of_app, list_elem_of_singleton. split.
           ++ intros [ [ ? | -> ] | (Hin & ? & ?) ].
              ** now left.
              ** right. split; [ now left | auto ].
              ** right. split; [ now right | auto ].
           ++ intros [ ? | ([ -> | Hin ]%elem_of_cons & Hs & Hx) ];
                [ left; now left | left; now right | right; auto ].
Qed.

(** X19: [check_api_keys] reports a required key as missing exactly when it
    is neither in the session state nor in the environment; a key of the
    session state keeps its value, a required key found only in the
    environment is copied from there, and nothing else changes. *)
Theorem check_api_keys_spec (session_state : gmap string V)
    (environ : gmap string string) :
  let out := check_api_keys of_text session_state environ in
  (forall key, key ∈ snd out <->
     key ∈ required_keys
     /\ session_state !! key = None /\ environ !! key = None)
  /\ (forall key value, session_state !! key = Some value ->
        fst out !! key = Some value)
  /\ (forall key, key ∈ required_keys -> session_state !! key = None ->
        fst out !! key = of_text <$> environ !! key)
  /\ (forall key, key ∉ required_keys -> fst out !! key = session_state !! key).
Proof.
  destruct (check_keys_loop_spec required_keys session_state environ [])
    as (I1 & I2 & I3 & I4).
  split; [ | auto ].
  intros key. unfold check_api_keys. rewrite I4. split.
  - intros [ Hin | ? ]; [ inversion Hin | assumption ].
  - auto.
Qed.
End Session_facts.

(** ** The further properties on concrete runs *)

(** X1 at a review with a score out of 100. *)
Lemma first_matching_pattern_decides_score_witness :
  first_match score_patterns (PyStr.lower review)
  = Some {| Re.group0 := "score: 85"; Re.group1 := Some "85" |}
  /\ exists g v r,
       Some "85" = Some g
       /\ PyFloat.of_string g = Some v
       /\ parse_screening_text review = Some r
       /\ sr_score r
          = if PyFloat.gt v PyFloat.ten then PyFloat.div v PyFloat.ten else v.
Proof.
  assert (Hm : first_match score_patterns (PyStr.lower review)
               = Some {| Re.group0 := "score: 85"; Re.group1 := Some "85" |})
    by (vm_compute; reflexivity).
  split; [ exact Hm | ].
  exact (first_matching_pattern_decides_score review _ Hm).
Defined.

(** X2 at the same review. *)
Lemma fallback_name_is_one_trimmed_line_witness :
  exists r, parse_screening_text review = Some r
    /\ sr_name r = "Alice Smith"
    /\ no_newline (sr_name r) /\ trimmed (sr_name r).
Proof.
  destruct (parse_screening_text review) as [ r | ] eqn:Hr;
    [ | vm_compute in Hr; discriminate Hr ].
  exists r. split; [ reflexivity | ].
  split; [ vm_compute in Hr; injection Hr as <-; reflexivity | ].
  exact (fallback_name_is_one_trimmed_line review r Hr).
Defined.

(** X3 at the same review. *)
Lemma matched_email_is_part_of_the_text_witness :
  Re.search email_pattern review
  = Some {| Re.group0 := "alice@x.org"; Re.group1 := None |}
  /\ exists r before after,
       parse_screening_text review = Some r
       /\ sr_email r = "alice@x.org"
       /\ review = before +:+ sr_email r +:+ after
       /\ no_blank (sr_email r).
Proof.
  assert (Hm : Re.search email_pattern review
               = Some {| Re.group0 := "alice@x.org"; Re.group1 := None |})
    by (vm_compute; reflexivity).
  split; [ exact Hm | ].
  exact (matched_email_is_part_of_the_text review _ Hm).
Defined.

(** X4 at a text without name and without address. *)
Lemma anonymous_result_gets_placeholder_email_witness :
  exists r, parse_screening_text "A solid profile." = Some r
    /\ sr_name r = "Unknown Candidate"
    /\ sr_email r = "unknown.candidate@example.com".
Proof.
  apply (anonymous_result_gets_placeholder_email "A solid profile.").
  - repeat constructor.
  - vm_compute; reflexivity.
Defined.

(** X5 at the review, which is shorter than 1000 characters. *)
Lemma fallback_feedback_is_bounded_prefix_witness :
  (PyStr.len review <= 1000)%nat
  /\ exists r, parse_screening_text review = Some r /\ sr_feedback r = review.
Proof.
  assert (Hlen : (PyStr.len review <= 1000)%nat) by (vm_compute; lia).
  split; [ exact Hlen | ].
  destruct (fallback_feedback_is_bounded_prefix review)
    as (r & rest & Hr & _ & _ & Hwhole).
  exists r. split; [ exact Hr | exact (Hwhole Hlen) ].
Defined.

(** X7 at a file that does not exist. *)
Lemma extraction_is_empty_exactly_witness :
  fst (read_pdf "c.pdf" (world (Script.start w_two))) = None
  /\ fst (extract_text_from_pdf "c.pdf" (Script.start w_two)) = "".
Proof.
  split; [ reflexivity | ].
  apply (extraction_is_empty_exactly (W := Script.t) "c.pdf" (Script.start w_two)).
  exact I.
Defined.

(** X8 at the resume of Ann, already read. *)
Lemma cached_resume_is_not_extracted_witness :
  let out := screen_candidate "a.pdf" "Engineer" cache_ann (Script.start w_two) in
  cache_ann !! "a.pdf" = Some "Ann Lee, intern"
  /\ fst (fst out)
     = fst (ask_screening "Ann Lee, intern" "Engineer" (Script.start w_two))
  /\ snd (fst out) = cache_ann
  /\ calls (snd out) = [] ++ [CallScreen "Ann Lee, intern" "Engineer"].
Proof.
  split; [ reflexivity | ].
  apply (cached_resume_is_not_extracted (W := Script.t)). reflexivity.
Defined.

(** X9 at the resume of Ann, read for the first time. *)
Lemma extracted_resume_is_cached_witness :
  let out := screen_candidate "a.pdf" "Engineer" ∅ (Script.start w_two) in
  fst (extract_text_from_pdf "a.pdf" (Script.start w_two)) = "Ann Lee, intern"
  /\ snd (fst out) = <[ "a.pdf" := "Ann Lee, intern" ]> ∅
  /\ calls (snd out)
     = [] ++ [CallExtract "a.pdf"; CallScreen "Ann Lee, intern" "Engineer"]
  /\ forall jd' (s2 : state Script.t),
       calls (snd (screen_candidate "a.pdf" jd' (snd (fst out)) s2))
       = calls s2 ++ [CallScreen "Ann Lee, intern" jd'].
Proof.
  split; [ reflexivity | ].
  exact (extracted_resume_is_cached (W := Script.t) "a.pdf" "Engineer" ∅
           (Script.start w_two) eq_refl ltac:(vm_compute; discriminate)).
Defined.

(** X10 at a list that names the resume of Ann twice. *)
Lemma readable_resume_is_extracted_once_witness :
  exists more,
    calls (snd (process_candidates ["a.pdf"; "a.pdf"] "Engineer" PyFloat.five
                  (Script.start w_two)))
    = [] ++ CallExtract "a.pdf" :: CallScreen "Ann Lee, intern" "Engineer" :: more
    /\ Forall (fun k => k <> CallExtract "a.pdf") more.
Proof.
  exact (readable_resume_is_extracted_once (W := Script.t) "a.pdf" ["a.pdf"]
           "Engineer" PyFloat.five (Script.start w_two)
           ltac:(discriminate) ltac:(vm_compute; discriminate)).
Defined.

(** X13 at the scheduler of [w_two], which answers with a text. *)
Lemma text_answer_gives_slot_for_the_candidate_witness :
  exists sc, fst (schedule_interview bea (Script.start w_two)) = Some sc
    /\ sc_name sc = sr_name bea /\ sc_email sc = sr_email bea.
Proof.
  pose (w1 := snd (scheduler_arun (schedule_prompt bea) w_two)).
  assert (Hreply : scheduler_arun (schedule_prompt bea)
                     (world (Script.start w_two))
                   = (Returned (Some (Text "ok")), w1))
    by (vm_compute; reflexivity).
  apply (proj1 (text_answer_gives_slot_for_the_candidate (W := Script.t) bea "ok"
                  (Script.start w_two) w1 Hreply ltac:(discriminate))).
  vm_compute. split; discriminate.
Defined.

(** X15 at the writer and the sender of [w_two]. *)
Lemma structured_email_needs_sender_witness :
  let out := send_interview_invitation bea slot (Script.start w_two) in
  fst out = Some invitation
  /\ calls (snd out) = [CallWrite bea slot; CallSend bea invitation].
Proof.
  pose (w1 := snd (email_writer_arun (email_prompt bea slot) w_two)).
  assert (Hreply : email_writer_arun (email_prompt bea slot)
                     (world (Script.start w_two))
                   = (Returned (Some (Structured invitation)), w1))
    by (vm_compute; reflexivity).
  pose proof (structured_email_needs_sender (W := Script.t) bea slot invitation
                (Script.start w_two) w1 Hreply) as Hrun.
  cbv zeta in *. rewrite Hrun. split; reflexivity.
Defined.

(** X17 at a run on the resume of Ann alone. *)
Lemma nobody_selected_nothing_scheduled_witness :
  let r := fst (process_candidates ["a.pdf"] "Engineer" PyFloat.five
                  (Script.start w_two)) in
  all_candidates r = [ann]
  /\ selected_candidates r = []
  /\ Forall (fun row => status row = rejected) (results r)
  /\ email_contents r = ∅.
Proof.
  intros r.
  assert (Hall : all_candidates r = [ann]) by (vm_compute; reflexivity).
  destruct (nobody_selected_nothing_scheduled (W := Script.t) ["a.pdf"] "Engineer"
              PyFloat.five (Script.start w_two)) as (Hsel & _ & Hrej & Hmail & _).
  - vm_compute; reflexivity.
  - fold r. rewrite Hall. repeat constructor.
  - fold r in Hsel, Hrej, Hmail. auto.
Defined.

(** X18 at the resume of Ann with a threshold of 2. *)
Lemma single_candidate_success_witness :
  let r := fst (process_candidates ["a.pdf"] "Engineer" (PyFloat.of_Z 2)
                  (Script.start w_two)) in
  all_candidates r = [ann]
  /\ email_contents r = {[ "ann@x.org" := invitation ]}
  /\ status <$> results r = [email_sent].
Proof.
  pose (o1 := screen_candidate "a.pdf" "Engineer" ∅ (Script.start w_two)).
  pose (o2 := schedule_interview ann (snd o1)).
  pose (sc := {| sc_name := "Ann Lee"; sc_email := "ann@x.org";
                 sc_call_time := "2026-11-07 14:00 IST";
                 sc_url := "https://zoom.us/j/123456789" |}).
  pose (o3 := send_interview_invitation ann sc (snd o2)).
  assert (H1 : screen_candidate "a.pdf" "Engineer" ∅ (Script.start w_two)
               = (Some ann, snd (fst o1), snd o1)) by (vm_compute; reflexivity).
  assert (H2 : PyFloat.ge (sr_score ann) (PyFloat.of_Z 2) = true)
    by (vm_compute; reflexivity).
  assert (H3 : schedule_interview ann (snd o1) = (Some sc, snd o2))
    by (vm_compute; reflexivity).
  assert (H4 : send_interview_invitation ann sc (snd o2)
               = (Some invitation, snd o3)) by (vm_compute; reflexivity).
  intros r. subst r.
  rewrite (single_candidate_success (W := Script.t) "a.pdf" "Engineer"
             (PyFloat.of_Z 2) _ _ _ _ ann _ sc invitation
             ltac:(discriminate) H1 H2 H3 H4).
  repeat split; reflexivity.
Defined.

(** X19 at an empty session state and an environment with the key. *)
Lemma check_api_keys_spec_witness :
  let out := check_api_keys (fun text => text) ∅ environ_key in
  snd out = []
  /\ fst out !! "OPENROUTER_API_KEY" = Some "sk-test".
Proof.
  intros out. split; [ reflexivity | ].
  destruct (check_api_keys_spec (fun text : string => text) ∅ environ_key)
    as (_ & _ & Hcopy & _).
  fold out in Hcopy. rewrite Hcopy.
  - reflexivity.
  - apply list_elem_of_here.
  - apply lookup_empty.
Defined.
